(** * Duplicate video detection and resolution
    (src/src/Video/detect_duplicate_videos.py)

    A shallow embedding of [DuplicateVideoDetector]: the size, hash, name,
    duration and duration+frames detectors, the duplicate report and the
    deletion routine [delete_duplicates].

    Modelling choices:
    - Python [int] is [Z]; Python [float] is Rocq's primitive IEEE-754
      binary64 [float] (PrimFloat), so comparisons, subtraction and [abs]
      are the ones Python performs.
    - A Python [dict] (insertion ordered, [defaultdict(list)] appends) is an
      association list [list (K * V)] whose order is the insertion order.
    - External collaborators (ffprobe, OpenCV, difflib, hashlib, the file
      system) are section variables: the code is proved for every behaviour
      of them. *)

From Stdlib Require Import List Bool ZArith String Ascii Lia Permutation.
From Stdlib Require Import Strings.Byte.
From Stdlib Require Import Floats.PrimFloat Floats.SpecFloat Floats.FloatOps.
Import ListNotations.

Open Scope Z_scope.
Set Warnings "-inexact-float".

(** ** Data model *)

(** [@dataclass class VideoFile]: [frame_hash] is never read by the
    detectors the claims are about, but kept for fidelity. *)
Record VideoFile := mkVideoFile {
  path : string;
  size : Z;
  name : string;
  hash_md5 : string;
  duration : float;
  frame_hash : string
}.

(** [VideoFile(path=..., size=..., name=...)] with the dataclass defaults
    [hash_md5 = ""], [duration = -1.0], [frame_hash = ""]. *)
Definition new_video_file (p : string) (s : Z) (n : string) : VideoFile :=
  mkVideoFile p s n EmptyString (PrimFloat.opp 1%float) EmptyString.

Definition set_hash_md5 (f : VideoFile) (h : string) : VideoFile :=
  mkVideoFile (path f) (size f) (name f) h (duration f) (frame_hash f).

Definition set_duration (f : VideoFile) (d : float) : VideoFile :=
  mkVideoFile (path f) (size f) (name f) (hash_md5 f) d (frame_hash f).

(** ** Python dicts as insertion-ordered association lists *)

Section Dict.
Context {K V : Type} (eqbK : K -> K -> bool).

(** [d[k].append(v)] on a [defaultdict(list)]. *)
Fixpoint dict_append (k : K) (v : V) (d : list (K * list V))
    : list (K * list V) :=
  match d with
  | [] => [(k, [v])]
  | (k', vs) :: d' =>
      if eqbK k k' then (k', vs ++ [v]) :: d'
      else (k', vs) :: dict_append k v d'
  end.

(** [d[k] = v] on a plain dict: an existing key keeps its position. *)
Fixpoint dict_set (k : K) (v : V) (d : list (K * V)) : list (K * V) :=
  match d with
  | [] => [(k, v)]
  | (k', v') :: d' =>
      if eqbK k k' then (k', v) :: d' else (k', v') :: dict_set k v d'
  end.

(** [d.get(k, [])] *)
Fixpoint dict_lookup (k : K) (d : list (K * list V)) : list V :=
  match d with
  | [] => []
  | (k', vs) :: d' => if eqbK k k' then vs else dict_lookup k d'
  end.

(** [{key: files for key, files in d.items() if len(files) > 1}] *)
Definition keep_duplicate_groups (d : list (K * list V)) : list (K * list V) :=
  filter (fun kv => Nat.ltb 1 (List.length (snd kv))) d.
(** [for x in xs: if key(x) is not None: d[key(x)].append(tr(x))] *)
Definition group_step {A : Type} (key : A -> option K) (tr : A -> V)
    (d : list (K * list V)) (x : A) : list (K * list V) :=
  match key x with
  | Some k => dict_append k (tr x) d
  | None => d
  end.

Definition has_key {A : Type} (key : A -> option K) (k : K) (x : A) : bool :=
  match key x with Some k' => eqbK k k' | None => false end.
End Dict.

(** [enumerate(xs, start)] *)
Fixpoint enumerate {A : Type} (start : nat) (xs : list A) : list (nat * A) :=
  match xs with
  | [] => []
  | x :: xs' => (start, x) :: enumerate (S start) xs'
  end.

(** [l1] is [l2] with some elements left out, the others kept in the
    same order. *)
Inductive subseq {A : Type} : list A -> list A -> Prop :=
| subseq_nil : subseq [] []
| subseq_take (x : A) (l1 l2 : list A) : subseq l1 l2 -> subseq (x :: l1) (x :: l2)
| subseq_skip (x : A) (l1 l2 : list A) : subseq l1 l2 -> subseq l1 (x :: l2).

(** Membership in a Python [set] of indices. *)
Definition in_set (i : nat) (s : list nat) : bool := existsb (Nat.eqb i) s.

(** ** Floats: Python's [int(x)] and [f"{x:.1f}"] *)

(** Round-half-even of [num / den] for [den > 0]. *)
Definition round_half_even_div (num den : Z) : Z :=
  let q := num / den in
  let r := num mod den in
  match Z.compare (2 * r) den with
  | Lt => q
  | Gt => q + 1
  | Eq => if Z.even q then q else q + 1
  end.

(** The value of a finite float times ten, rounded half-even to an
    integer: the digits Python prints for [f"{x:.1f}"] (Python formats the
    exact binary value, correctly rounded, ties to even). *)
Definition tenths_of_finite (m : positive) (e : Z) : Z :=
  if Z.leb 0 e then Z.pos m * 10 * 2 ^ e
  else round_half_even_div (Z.pos m * 10) (2 ^ (- e)).

Fixpoint digits_rev (fuel : nat) (n : Z) : list ascii :=
  match fuel with
  | O => []
  | S fuel' =>
      let d := ascii_of_nat (48 + Z.to_nat (n mod 10)) in
      if Z.ltb n 10 then [d] else d :: digits_rev fuel' (n / 10)
  end.

(** Decimal representation of a non-negative integer. *)
Definition string_of_nonneg (n : Z) : string :=
  string_of_list_ascii (rev (digits_rev 400 n)).

(** [f"{x:.1f}"] *)
Definition format_1f (x : float) : string :=
  let sgn (s : bool) := if s then "-"%string else EmptyString in
  match Prim2SF x with
  | S754_zero s => (sgn s ++ "0.0")%string
  | S754_infinity s => (sgn s ++ "inf")%string
  | S754_nan => "nan"%string
  | S754_finite s m e =>
      let t := tenths_of_finite m e in
      (sgn s ++ string_of_nonneg (t / 10) ++ "."
           ++ string_of_nonneg (t mod 10))%string
  end.

(** Python's [int(x)] on a finite float: truncation toward zero. *)
Definition float_to_int (x : float) : Z :=
  match Prim2SF x with
  | S754_finite s m e =>
      let a := if Z.leb 0 e then Z.pos m * 2 ^ e else Z.pos m / 2 ^ (- e) in
      if s then - a else a
  | _ => 0
  end.

(** Exact for integers below [2^53] in absolute value, which is where
    Python's [float(n)] is exact too. *)
Fixpoint float_of_pos (p : positive) : float :=
  match p with
  | xH => 1%float
  | xO p' => PrimFloat.mul 2%float (float_of_pos p')
  | xI p' => PrimFloat.add (PrimFloat.mul 2%float (float_of_pos p')) 1%float
  end.

(** Python's [float(n)] (an [int] divided by a [float] is converted first). *)
Definition float_of_int (n : Z) : float :=
  match n with
  | Z0 => 0%float
  | Zpos p => float_of_pos p
  | Zneg p => PrimFloat.opp (float_of_pos p)
  end.

(** [sorted(files, key=lambda x: x.size, reverse=True)]: Python's sort is
    stable also with [reverse=True], so files of equal size keep their
    order. Written as an insertion sort that inserts each next file after
    every file at least as large. *)
Fixpoint insert_by_size_desc (x : VideoFile) (l : list VideoFile)
    : list VideoFile :=
  match l with
  | [] => [x]
  | y :: l' =>
      if Z.ltb (size y) (size x) then x :: y :: l'
      else y :: insert_by_size_desc x l'
  end.

Definition sorted_by_size_desc (files : list VideoFile) : list VideoFile :=
  fold_left (fun acc x => insert_by_size_desc x acc) files [].

(** One outcome of [cap.read()] after the seek: a frame, [ret == False],
    or an exception (caught by the [except Exception] of
    [extract_video_frames]). *)
Inductive read_outcome (F : Type) : Type :=
| ReadFrame (f : F)
| ReadEnd
| ReadRaises.
Arguments ReadFrame {F} f.
Arguments ReadEnd {F}.
Arguments ReadRaises {F}.

(** What one iteration of the loop of [delete_duplicates] did to a file. *)
Inductive delete_event : Type :=
| Simulated (p : string)      (* dry run: [[模拟] 将删除] *)
| Deleted (p : string)        (* [os.remove] returned *)
| DeleteFailed (p : string).  (* [os.remove] raised [OSError] *)

Definition event_path (e : delete_event) : string :=
  match e with Simulated p | Deleted p | DeleteFailed p => p end.

Definition event_failed (e : delete_event) : bool :=
  match e with DeleteFailed _ => true | _ => false end.

(** The status column of the report listing. *)
Inductive report_status : Type := Keep (* [保留] *) | Duplicate (* [重复] *).

(** ** Concrete inventories *)

(** An [ffprobe] that knows the listed durations and fails on other paths. *)
Definition probe_of (ds : list (string * float)) (p : string) : option float :=
  match find (fun e => String.eqb (fst e) p) ds with
  | Some e => Some (snd e)
  | None => None
  end.

(** An inventory of files of the given paths and sizes, in that order. *)
Definition inventory (l : list (string * Z)) : list VideoFile :=
  map (fun '(p, s) => new_video_file p s p) l.

(** Durations 100, 106, 102.5 and 105 s, in this order: with tolerance 3
    the last file matches the third but not the first. *)
Definition chain_durations : list (string * float) :=
  [("a.mp4"%string, 100%float); ("d.mp4"%string, 106%float);
   ("b.mp4"%string, 102.5%float); ("x.mp4"%string, 105%float)].

Definition chain_files : list VideoFile :=
  inventory [("a.mp4"%string, 10); ("d.mp4"%string, 10);
             ("b.mp4"%string, 10); ("x.mp4"%string, 10)].

(** Durations 100, 104, 102 and 106 s: the third file matches the second
    one with tolerance 3, but the first one claims it. *)
Definition claimed_durations : list (string * float) :=
  [("p.mp4"%string, 100%float); ("q.mp4"%string, 104%float);
   ("r.mp4"%string, 102%float); ("s.mp4"%string, 106%float)].

Definition claimed_files : list VideoFile :=
  inventory [("p.mp4"%string, 10); ("q.mp4"%string, 10);
             ("r.mp4"%string, 10); ("s.mp4"%string, 10)].

(** Two-file inventories of the spec's duration example. *)
Definition pair_durations : list (string * float) :=
  [("m.mp4"%string, 100%float); ("n.mp4"%string, 102.5%float);
   ("o.mp4"%string, 104%float)].

Definition near_pair_files : list VideoFile :=
  inventory [("m.mp4"%string, 10); ("n.mp4"%string, 10)].

Definition far_pair_files : list VideoFile :=
  inventory [("m.mp4"%string, 10); ("o.mp4"%string, 10)].

(** Two files of equal duration, the smaller one first. *)
Definition same_length_durations : list (string * float) :=
  [("small.mp4"%string, 100%float); ("large.mp4"%string, 100%float)].

Definition same_length_files : list VideoFile :=
  inventory [("small.mp4"%string, 1); ("large.mp4"%string, 2)].

(** Durations 100.00 and 100.04 s: different with tolerance 0.01, but
    both formatted as [100.0]. *)
Definition close_durations : list (string * float) :=
  [("u.mp4"%string, 100%float); ("v.mp4"%string, 100.04%float)].

Definition close_files : list VideoFile :=
  inventory [("u.mp4"%string, 10); ("v.mp4"%string, 10)].

(** ** [ProgressDisplay] *)

(** A cell of the progress bar: ["█"] or ["░"]. *)
Inductive bar_cell : Type := Filled | Unfilled.

(** What [update] and [finish] print: the progress line, given by its bar,
    its [current/total] counters and the item name it shows (in code
    points; the percentage and times printed with it are not modelled);
    the line break printed on completion; and [finish]'s closing message
    with the total time. *)
Inductive progress_out : Type :=
| ProgressLine (bar : list bar_cell) (current total : Z) (item : option (list Z))
| ProgressNewline
| ProgressDone (success_message : string) (total_time : float).

Record ProgressDisplay := mkProgressDisplay {
  pd_total : Z;
  pd_current : Z;
  pd_description : string;
  pd_verbose : bool;
  pd_start_time : float;
  pd_last_update_time : float
}.

(** [self.update_interval = 1.0] *)
Definition update_interval : float := 1%float.

(** [bar_length = 30] *)
Definition bar_length : Z := 30.

(** [ProgressDisplay(total, description, verbose)] created at time [now]. *)
Definition new_progress (total : Z) (description : string) (verbose : bool)
    (now : float) : ProgressDisplay :=
  mkProgressDisplay total 0 description verbose now 0%float.

Definition set_current (p : ProgressDisplay) (c : Z) : ProgressDisplay :=
  mkProgressDisplay (pd_total p) c (pd_description p) (pd_verbose p)
    (pd_start_time p) (pd_last_update_time p).

Definition set_last_update_time (p : ProgressDisplay) (t : float) : ProgressDisplay :=
  mkProgressDisplay (pd_total p) (pd_current p) (pd_description p) (pd_verbose p)
    (pd_start_time p) t.

(** Python's [s * n]: empty for [n <= 0]. *)
Definition py_repeat {A : Type} (x : A) (n : Z) : list A := repeat x (Z.to_nat n).

(** [if len(item_name) > 50: item_name = item_name[:47] + "..."] *)
Definition truncate_item_name (item_name : list Z) : list Z :=
  if Nat.ltb 50 (List.length item_name)
  then firstn 47 item_name ++ [46; 46; 46]
  else item_name.

(** [update(increment, item_name)] at [time.time() = current_time]. *)
Definition progress_update (increment : Z) (item_name : list Z) (current_time : float)
    (p : ProgressDisplay) : ProgressDisplay * list progress_out :=
  let current := pd_current p + increment in
  let p1 := set_current p current in
  if PrimFloat.ltb (PrimFloat.sub current_time (pd_last_update_time p)) update_interval
     && Z.ltb current (pd_total p)
  then (p1, [])
  else
    let p2 := set_last_update_time p1 current_time in
    if Z.ltb 0 (pd_total p) then
      let filled_length := bar_length * current / pd_total p in
      let bar := py_repeat Filled filled_length
                 ++ py_repeat Unfilled (bar_length - filled_length) in
      let item := match item_name with
                  | [] => None
                  | _ => Some (truncate_item_name item_name)
                  end in
      (p2, ProgressLine bar current (pd_total p) item
             :: (if Z.leb (pd_total p) current then [ProgressNewline] else []))
    else (p2, []).

(** [finish(success_message)]: the inner [update(0)] runs at
    [update_time], the final [time.time()] is [finish_time]. *)
Definition progress_finish (success_message : string) (update_time finish_time : float)
    (p : ProgressDisplay) : ProgressDisplay * list progress_out :=
  if pd_verbose p then
    let '(p1, out1) :=
      if Z.ltb (pd_current p) (pd_total p)
      then progress_update 0 [] update_time (set_current p (pd_total p))
      else (p, []) in
    (p1, out1 ++ [ProgressDone success_message
                   (PrimFloat.sub finish_time (pd_start_time p1))])
  else (p, []).

(** ** The extension set *)

(** [DuplicateVideoDetector.DEFAULT_VIDEO_EXTENSIONS] *)
Definition DEFAULT_VIDEO_EXTENSIONS : list string :=
  [".mp4"; ".mkv"; ".avi"; ".mov"; ".flv"; ".wmv"; ".m4v"; ".ts"; ".webm";
   ".mpg"; ".mpeg"; ".3gp"; ".f4v"; ".asf"; ".rm"; ".rmvb"]%string.

(** [self.extensions = extensions or self.DEFAULT_VIDEO_EXTENSIONS]: a
    missing or empty set is falsy. *)
Definition detector_extensions (extensions : option (list string)) : list string :=
  match extensions with
  | Some (e :: es) => e :: es
  | _ => DEFAULT_VIDEO_EXTENSIONS
  end.

Fixpoint split_comma_from (cur : string) (s : string) : list string :=
  match s with
  | EmptyString => [cur]
  | String c s' =>
      if Ascii.eqb c ","%char then cur :: split_comma_from EmptyString s'
      else split_comma_from (cur ++ String c EmptyString)%string s'
  end.

(** [s.split(",")] *)
Definition py_split_comma (s : string) : list string := split_comma_from EmptyString s.

(** [{... for x in xs}]: a Python set, as a list without repetitions
    (only membership is observed). *)
Definition py_set_of (xs : list string) : list string :=
  fold_left (fun acc x => if existsb (String.eqb x) acc then acc else acc ++ [x]) xs [].

(** [ext.startswith(".")] *)
Definition starts_with_dot (e : string) : bool := String.prefix "." e.

(** [f".{ext}" if not ext.startswith(".") else ext] *)
Definition dotted (e : string) : string :=
  if starts_with_dot e then e else ("." ++ e)%string.

(** [main]'s top-level script and its [--method] choices. *)
Inductive method : Type := MSize | MHash | MName | MDuration | MFrames.
Inductive method_arg : Type := MethodAll | MethodOne (m : method).

Definition method_eqb (m m' : method) : bool :=
  match m, m' with
  | MSize, MSize | MHash, MHash | MName, MName
  | MDuration, MDuration | MFrames, MFrames => true
  | _, _ => false
  end.

(** [args.method in [m, "all"]] *)
Definition runs (a : method_arg) (m : method) : bool :=
  match a with MethodAll => true | MethodOne m' => method_eqb m' m end.

Record main_args := mkMainArgs {
  a_directory_is_dir : bool;         (* [os.path.isdir(args.directory)] *)
  a_method : method_arg;
  a_extensions : option string;
  a_similarity : float;
  a_duration_tolerance : float;
  a_frame_similarity : float;
  a_extract_seconds : float;
  a_delete : bool;
  a_dry_run : bool
}.

Section Detector.

(** *** External collaborators *)

(** The file system, as far as [os.remove] is concerned: [None] is an
    [OSError] (missing file, permission, ...). *)
Variable FS : Type.
Variable os_remove : FS -> string -> option FS.

(** [open(path, "rb")] followed by the [f.read(8192)] loop: the chunks
    read, or [None] when [open] or some [read] raises [OSError]. *)
Variable read_file_chunks : string -> option (list (list byte)).
(** [hashlib.md5()] updated with the bytes, then [hexdigest()]. *)
Variable md5_hexdigest : list byte -> string.

(** ffprobe: [Some d] when it exits with 0 and its JSON has
    [format.duration = d]; [None] on timeout, failure or bad JSON. *)
Variable ffprobe_duration : string -> option float.

(** [str.lower] and [SequenceMatcher(None, a, b).ratio()]. *)
Variable str_lower : string -> string.
Variable sequence_matcher_ratio : string -> string -> float.

(** OpenCV: [cv2.VideoCapture(path).isOpened()], [CAP_PROP_FPS],
    [CAP_PROP_FRAME_COUNT], the [k]-th [cap.read()] after
    [cap.set(CAP_PROP_POS_FRAMES, pos)], the grey 64x64 thumbnail of a
    frame, and [cv2.matchTemplate(.., TM_CCOEFF_NORMED)[0][0]]
    ([None] when it raises). *)
Variable raw_frame thumb : Type.
Variable cap_is_opened : string -> bool.
Variable cap_fps : string -> float.
Variable cap_frame_count : string -> float.
Variable cap_read : string -> Z -> nat -> read_outcome raw_frame.
Variable gray_resize_64 : raw_frame -> thumb.
Variable match_template_ccoeff_normed : thumb -> thumb -> option float.
(** [np.mean] of a non-empty list of floats. *)
Variable np_mean : list float -> float.

(** *** [detect_by_size] *)

Definition size_groups (video_files : list VideoFile)
    : list (Z * list VideoFile) :=
  fold_left (fun d f => dict_append Z.eqb (size f) f d) video_files [].

Definition detect_by_size (video_files : list VideoFile)
    : list (Z * list VideoFile) :=
  keep_duplicate_groups (size_groups video_files).

(** *** [calculate_file_hash] and [detect_by_hash] *)

Definition calculate_file_hash (file_path : string) : string :=
  match read_file_chunks file_path with
  | Some chunks => md5_hexdigest (List.concat chunks)
  | None => EmptyString
  end.

(** The loop body: [video_file.hash_md5 = ...; if video_file.hash_md5:
    hash_groups[...].append(video_file)]. *)
Definition hash_step (d : list (string * list VideoFile)) (f : VideoFile)
    : list (string * list VideoFile) :=
  let h := calculate_file_hash (path f) in
  let f' := set_hash_md5 f h in
  if String.eqb h EmptyString then d else dict_append String.eqb h f' d.

Definition hash_groups (video_files : list VideoFile)
    : list (string * list VideoFile) :=
  fold_left hash_step video_files [].

Definition detect_by_hash (video_files : list VideoFile)
    : list (string * list VideoFile) :=
  keep_duplicate_groups (hash_groups video_files).

(** The key under which [detect_by_hash] files a file, if any. *)
Definition hash_key (f : VideoFile) : option string :=
  let h := calculate_file_hash (path f) in
  if String.eqb h EmptyString then None else Some h.

(** *** Greedy representative clustering
    ([detect_by_name_similarity] and [detect_by_duration] share the same
    two loops; they differ in the group key and the match test). *)

(** [for j, file2 in enumerate(files[i + 1:], i + 1): if j in processed:
    continue; if <match file2>: groups[group_key].append(file2);
    processed.add(j)] *)
Fixpoint greedy_scan (matches : VideoFile -> bool) (group_key : string)
    (js : list (nat * VideoFile)) (processed : list nat)
    (groups : list (string * list VideoFile))
    : list nat * list (string * list VideoFile) :=
  match js with
  | [] => (processed, groups)
  | (j, file2) :: js' =>
      if in_set j processed then greedy_scan matches group_key js' processed groups
      else if matches file2 then
        greedy_scan matches group_key js' (j :: processed)
          (dict_append String.eqb group_key file2 groups)
      else greedy_scan matches group_key js' processed groups
  end.

(** [for i, file1 in enumerate(files): if i in processed: continue;
    groups[group_key].append(file1); processed.add(i); <greedy_scan>] *)
Fixpoint greedy_outer (key_of : nat -> VideoFile -> string)
    (matches : VideoFile -> VideoFile -> bool)
    (items : list (nat * VideoFile)) (processed : list nat)
    (groups : list (string * list VideoFile))
    : list (string * list VideoFile) :=
  match items with
  | [] => groups
  | (i, file1) :: rest =>
      if in_set i processed then greedy_outer key_of matches rest processed groups
      else
        let group_key := key_of i file1 in
        let groups1 := dict_append String.eqb group_key file1 groups in
        let '(processed2, groups2) :=
          greedy_scan (matches file1) group_key rest (i :: processed) groups1 in
        greedy_outer key_of matches rest processed2 groups2
  end.

(** *** [detect_by_name_similarity] *)

Definition name_key (i : nat) (_ : VideoFile) : string :=
  ("group_" ++ string_of_nonneg (Z.of_nat i))%string.

Definition name_matches (similarity_threshold : float) (file1 file2 : VideoFile)
    : bool :=
  PrimFloat.leb similarity_threshold
    (sequence_matcher_ratio (str_lower (name file1)) (str_lower (name file2))).

Definition detect_by_name_similarity (similarity_threshold : float)
    (video_files : list VideoFile) : list (string * list VideoFile) :=
  keep_duplicate_groups
    (greedy_outer name_key (name_matches similarity_threshold)
       (enumerate 0 video_files) [] []).

(** *** [get_video_duration] and [detect_by_duration] *)

Definition get_video_duration (file_path : string) : float :=
  match ffprobe_duration file_path with
  | Some d => d
  | None => PrimFloat.opp 1%float
  end.

(** The first loop: [if duration > 0: video_file.duration = duration;
    valid_files.append(video_file)]. *)
Definition valid_duration_files (video_files : list VideoFile)
    : list VideoFile :=
  fold_left
    (fun acc f =>
       let d := get_video_duration (path f) in
       if PrimFloat.ltb 0%float d then acc ++ [set_duration f d] else acc)
    video_files [].

(** [group_key = f"duration_{file1.duration:.1f}"] *)
Definition duration_key (_ : nat) (file1 : VideoFile) : string :=
  ("duration_" ++ format_1f (duration file1))%string.

(** [abs(file1.duration - file2.duration) <= duration_tolerance] *)
Definition duration_matches (duration_tolerance : float) (file1 file2 : VideoFile)
    : bool :=
  PrimFloat.leb (PrimFloat.abs (PrimFloat.sub (duration file1) (duration file2)))
    duration_tolerance.

Definition duration_groups (duration_tolerance : float)
    (video_files : list VideoFile) : list (string * list VideoFile) :=
  greedy_outer duration_key (duration_matches duration_tolerance)
    (enumerate 0 (valid_duration_files video_files)) [] [].

Definition detect_by_duration (duration_tolerance : float)
    (video_files : list VideoFile) : list (string * list VideoFile) :=
  keep_duplicate_groups (duration_groups duration_tolerance video_files).
(** *** [extract_video_frames] *)

(** Python's [int(x)]: raises on [nan] and on infinities. *)
Definition py_int (x : float) : option Z :=
  match Prim2SF x with
  | S754_zero _ => Some 0
  | S754_finite _ _ _ => Some (float_to_int x)
  | _ => None
  end.

(** [while frame_count < target_frames: ret, frame = cap.read(); if not
    ret: break; middle_frames.append(resize(gray(frame)))]; an exception
    leaves the loop with the frames read so far. *)
Fixpoint read_frames (file_path : string) (start : Z) (k remaining : nat)
    (middle_frames : list thumb) : list thumb :=
  match remaining with
  | O => middle_frames
  | S remaining' =>
      match cap_read file_path start k with
      | ReadFrame fr =>
          read_frames file_path start (S k) remaining'
            (middle_frames ++ [gray_resize_64 fr])
      | ReadEnd => middle_frames
      | ReadRaises => middle_frames
      end
  end.

(** The middle frames ([empty_frames] is always [[]] and is left out). *)
Definition extract_video_frames (file_path : string) (extract_seconds : float)
    : list thumb :=
  if negb (cap_is_opened file_path) then []
  else
    let fps := cap_fps file_path in
    match py_int (cap_frame_count file_path) with
    | None => []
    | Some total_frames =>
        let dur := if PrimFloat.ltb 0%float fps
                   then PrimFloat.div (float_of_int total_frames) fps
                   else 0%float in
        if PrimFloat.ltb dur 10%float then []
        else
          let middle_time := PrimFloat.div dur 2%float in
          match py_int (PrimFloat.mul middle_time fps) with
          | None => []
          | Some middle_frame =>
              let target :=
                if PrimFloat.ltb 0%float fps
                then py_int (PrimFloat.mul fps extract_seconds)
                else Some 150 in
              match target with
              | None => []
              | Some target_frames =>
                  read_frames file_path middle_frame 0 (Z.to_nat target_frames) []
              end
          end
    end.

(** The duration the frame extractor tests against 10 seconds
    ([None] when [int(...)] raises before the test). *)
Definition capture_duration (file_path : string) : option float :=
  match py_int (cap_frame_count file_path) with
  | None => None
  | Some total_frames =>
      let fps := cap_fps file_path in
      Some (if PrimFloat.ltb 0%float fps
            then PrimFloat.div (float_of_int total_frames) fps
            else 0%float)
  end.

(** *** [calculate_frame_similarity] *)

(** [max(0, correlation)]: Python's [max] returns its first argument
    unless the second is greater. *)
Definition clamp_correlation (c : float) : float :=
  if PrimFloat.ltb 0%float c then c else 0%float.

Definition calculate_frame_similarity (frames1 frames2 : list thumb) : float :=
  match frames1, frames2 with
  | [], _ | _, [] => 0%float
  | _, _ =>
      let similarities :=
        map (fun '(a, b) =>
               match match_template_ccoeff_normed a b with
               | Some c => clamp_correlation c
               | None => 0%float
               end) (combine frames1 frames2) in
      match similarities with
      | [] => 0%float
      | _ => np_mean similarities
      end
  end.

(** *** [detect_by_duration_and_frames] *)

Definition in_paths (p : string) (s : list string) : bool :=
  existsb (String.eqb p) s.

(** [file_frames[video_file.path] = (...)] for every file whose middle
    frames are non-empty. *)
Definition collect_file_frames (extract_seconds : float) (files : list VideoFile)
    : list (string * (VideoFile * list thumb)) :=
  fold_left
    (fun ff video_file =>
       match extract_video_frames (path video_file) extract_seconds with
       | [] => ff
       | middle_frames =>
           dict_set String.eqb (path video_file) (video_file, middle_frames) ff
       end)
    files [].

(** The inner [for path2, (...) in file_frames.items()] loop. *)
Fixpoint frames_scan (threshold : float) (frames1 : list thumb)
    (items : list (string * (VideoFile * list thumb)))
    (processed : list string) (similar_files : list VideoFile)
    : list string * list VideoFile :=
  match items with
  | [] => (processed, similar_files)
  | (path2, (file2, frames2)) :: items' =>
      if in_paths path2 processed
      then frames_scan threshold frames1 items' processed similar_files
      else if PrimFloat.leb threshold (calculate_frame_similarity frames1 frames2)
      then frames_scan threshold frames1 items' (path2 :: processed)
             (similar_files ++ [file2])
      else frames_scan threshold frames1 items' processed similar_files
  end.

(** The outer [for path1, (...) in file_frames.items()] loop; [all_items]
    is [file_frames.items()], scanned in full by the inner loop. *)
Fixpoint frames_outer (threshold : float) (group_key : string)
    (all_items items : list (string * (VideoFile * list thumb)))
    (processed : list string) (similar_group_count : nat)
    (frame_duplicates : list (string * list VideoFile))
    : list (string * list VideoFile) :=
  match items with
  | [] => frame_duplicates
  | (path1, (file1, frames1)) :: items' =>
      if in_paths path1 processed
      then frames_outer threshold group_key all_items items' processed
             similar_group_count frame_duplicates
      else
        let '(processed2, similar_files) :=
          frames_scan threshold frames1 all_items (path1 :: processed) [file1] in
        if Nat.ltb 1 (List.length similar_files) then
          let frame_group_key :=
            (group_key ++ "_frames_"
               ++ string_of_nonneg (Z.of_nat similar_group_count))%string in
          frames_outer threshold group_key all_items items' processed2
            (S similar_group_count)
            (dict_set String.eqb frame_group_key similar_files frame_duplicates)
        else
          frames_outer threshold group_key all_items items' processed2
            similar_group_count frame_duplicates
  end.

(** The body of [for group_key, files in duration_candidates.items()]. *)
Definition frames_group_step (threshold extract_seconds : float)
    (frame_duplicates : list (string * list VideoFile))
    (kv : string * list VideoFile) : list (string * list VideoFile) :=
  let '(group_key, files) := kv in
  if Nat.ltb (List.length files) 2 then frame_duplicates
  else
    let file_frames := collect_file_frames extract_seconds files in
    let n := List.length file_frames in
    if Nat.ltb 0 (n * (n - 1) / 2) then
      frames_outer threshold group_key file_frames file_frames [] 0
        frame_duplicates
    else frame_duplicates.

Definition detect_by_duration_and_frames (duration_tolerance
    frame_similarity_threshold extract_seconds : float)
    (video_files : list VideoFile) : list (string * list VideoFile) :=
  match detect_by_duration duration_tolerance video_files with
  | [] => []
  | duration_candidates =>
      fold_left (frames_group_step frame_similarity_threshold extract_seconds)
        duration_candidates []
  end.

(** *** [print_duplicates_report] *)

(** The totals and the per-group listing (status, file) the report
    prints; [None] is the [未发现重复文件] branch of an empty dict. *)
Definition report_group_step {K : Type}
    (acc : Z * Z * list (list (report_status * VideoFile)))
    (kv : K * list VideoFile) : Z * Z * list (list (report_status * VideoFile)) :=
  let '(total_duplicates, total_wasted_space, listing) := acc in
  let files := snd kv in
  match files with
  | [] | [_] => acc
  | first :: _ =>
      let n := Z.of_nat (List.length files) in
      let wasted_space := size first * (n - 1) in
      let sorted_files := sorted_by_size_desc files in
      let lines :=
        map (fun '(i, file) => (if Nat.eqb i 0 then Keep else Duplicate, file))
          (enumerate 0 sorted_files) in
      (total_duplicates + (n - 1), total_wasted_space + wasted_space,
       listing ++ [lines])
  end.

Definition print_duplicates_report {K : Type} (duplicates : list (K * list VideoFile))
    : option (Z * Z * list (list (report_status * VideoFile))) :=
  match duplicates with
  | [] => None
  | _ => Some (fold_left report_group_step duplicates (0, 0, []))
  end.

(** *** [delete_duplicates] *)

(** The body of [for file in files_to_delete]. *)
Definition delete_file_step (dry_run : bool)
    (st : nat * nat * FS * list delete_event) (file : VideoFile)
    : nat * nat * FS * list delete_event :=
  let '(deleted_count, failed_count, fs, events) := st in
  if dry_run then (S deleted_count, failed_count, fs, events ++ [Simulated (path file)])
  else
    match os_remove fs (path file) with
    | Some fs' => (S deleted_count, failed_count, fs', events ++ [Deleted (path file)])
    | None => (deleted_count, S failed_count, fs, events ++ [DeleteFailed (path file)])
    end.

(** [files_to_delete = sorted_files[1:]] *)
Definition files_to_delete (files : list VideoFile) : list VideoFile :=
  skipn 1 (sorted_by_size_desc files).

Definition delete_group_step {K : Type} (dry_run : bool)
    (st : nat * nat * FS * list delete_event) (kv : K * list VideoFile)
    : nat * nat * FS * list delete_event :=
  let files := snd kv in
  if Nat.leb (List.length files) 1 then st
  else fold_left (delete_file_step dry_run) (files_to_delete files) st.

Definition total_to_delete {K : Type} (duplicates : list (K * list VideoFile)) : nat :=
  fold_left (fun t kv => if Nat.ltb 1 (List.length (snd kv))
                         then t + (List.length (snd kv) - 1) else t)%nat
    duplicates 0%nat.

(** Returns [(deleted_count, failed_count)], the file system afterwards
    and the events, in order. *)
Definition delete_duplicates {K : Type} (duplicates : list (K * list VideoFile))
    (dry_run : bool) (fs : FS) : nat * nat * FS * list delete_event :=
  if Nat.eqb (total_to_delete duplicates) 0 then (0%nat, 0%nat, fs, [])
  else fold_left (delete_group_step dry_run) duplicates (0%nat, 0%nat, fs, []).

(** The files [delete_duplicates] marks in one dict entry. *)
Definition marked_files {K : Type} (kv : K * list VideoFile) : list VideoFile :=
  if Nat.leb (List.length (snd kv)) 1 then [] else files_to_delete (snd kv).

Definition count_failed (events : list delete_event) : nat :=
  List.length (filter event_failed events).

(** How a run of the loop from [st] to [st'] relates to the files it
    went through. *)
Definition loop_ran (dry_run : bool) (st st' : nat * nat * FS * list delete_event)
    (files : list VideoFile) : Prop :=
  let '(dc, fc, fs, ev) := st in
  let '(dc', fc', fs', ev') := st' in
  exists new,
    ev' = ev ++ new /\
    map event_path new = map path files /\
    (dc' + fc' = dc + fc + List.length files)%nat /\
    fc' = (fc + count_failed new)%nat /\
    (dry_run = true ->
     fs' = fs /\ fc' = fc /\ Forall (fun e => e = Simulated (event_path e)) new) /\
    (dry_run = false -> Forall (fun e => e <> Simulated (event_path e)) new).

(** *** Greedy representative clustering, in the spec's words *)

(** The spec's clustering: the first file is a representative; its
    cluster is itself and the later files that match it (compared with
    the representative only); the files that do not match are clustered
    in the same way. Files are [(index, file)] pairs; [fuel] bounds the
    number of clusters. *)
Fixpoint greedy_clusters_fuel {A : Type} (m : A -> A -> bool) (fuel : nat)
    (l : list A) : list (list A) :=
  match fuel with
  | O => []
  | S fuel' =>
      match l with
      | [] => []
      | x :: rest =>
          (x :: filter (m x) rest)
            :: greedy_clusters_fuel m fuel' (filter (fun y => negb (m x y)) rest)
      end
  end.

Definition greedy_clusters {A : Type} (m : A -> A -> bool) (l : list A)
    : list (list A) :=
  greedy_clusters_fuel m (List.length l) l.

Definition on_file (m : VideoFile -> VideoFile -> bool) (p q : nat * VideoFile)
    : bool := m (snd p) (snd q).

(** Appending one cluster to the dict under its representative's key. *)
Definition emit_cluster (key_of : nat -> VideoFile -> string)
    (groups : list (string * list VideoFile)) (c : list (nat * VideoFile))
    : list (string * list VideoFile) :=
  match c with
  | [] => groups
  | (i, rep) :: _ =>
      fold_left (fun g p => dict_append String.eqb (key_of i rep) (snd p) g) c groups
  end.

Definition unprocessed (processed : list nat) (p : nat * VideoFile) : bool :=
  negb (in_set (fst p) processed).

(** The frame detector's match test on two [file_frames] entries. *)
Definition frame_matches (threshold : float)
    (p q : string * (VideoFile * list thumb)) : bool :=
  PrimFloat.leb threshold (calculate_frame_similarity (snd (snd p)) (snd (snd q))).

Definition unprocessed_path (processed : list string)
    (p : string * (VideoFile * list thumb)) : bool :=
  negb (in_paths (fst p) processed).

(** Storing the clusters of at least two files under
    [f"{group_key}_frames_{similar_group_count}"]. *)
Fixpoint emit_frame_groups (group_key : string)
    (cs : list (list (string * (VideoFile * list thumb))))
    (similar_group_count : nat) (frame_duplicates : list (string * list VideoFile))
    : list (string * list VideoFile) :=
  match cs with
  | [] => frame_duplicates
  | c :: cs' =>
      if Nat.ltb 1 (List.length c) then
        emit_frame_groups group_key cs' (S similar_group_count)
          (dict_set String.eqb
             (group_key ++ "_frames_"
                ++ string_of_nonneg (Z.of_nat similar_group_count))%string
             (map (fun p => fst (snd p)) c) frame_duplicates)
      else emit_frame_groups group_key cs' similar_group_count frame_duplicates
  end.

(** *** [scan_video_files] *)

(** One entry of [self.root_dir.rglob("*")]: [str(file_path)],
    [is_file()], [name], [suffix] and [stat().st_size] ([None] when [stat]
    raises). *)
Record fs_entry := mkFsEntry {
  entry_path : string;
  entry_is_file : bool;
  entry_name : string;
  entry_suffix : string;
  entry_stat_size : option Z
}.

(** The tree walk; both passes of [scan_video_files] see the same tree. *)
Variable rglob_all : list fs_entry.

(** [str.strip] *)
Variable py_strip : string -> string.

(** [file_path.suffix.lower() in self.extensions] *)
Definition has_extension (extensions : list string) (e : fs_entry) : bool :=
  existsb (String.eqb (str_lower (entry_suffix e))) extensions.

Definition scan_step (extensions : list string) (acc : list VideoFile * nat)
    (e : fs_entry) : list VideoFile * nat :=
  let '(video_files, video_count) := acc in
  if entry_is_file e then
    if has_extension extensions e then
      match entry_stat_size e with
      | Some file_size =>
          (video_files ++ [new_video_file (entry_path e) file_size (entry_name e)],
           S video_count)
      | None => acc
      end
    else acc
  else acc.

(** Returns [self.video_files] afterwards, [total_files] and
    [video_count] (the progress output is not modelled). *)
Definition scan_video_files (extensions : list string) (video_files : list VideoFile)
    : list VideoFile * nat * nat :=
  let total_files := List.length (filter entry_is_file rglob_all) in
  let '(video_files', video_count) :=
    fold_left (scan_step extensions) rglob_all (video_files, 0%nat) in
  (video_files', total_files, video_count).

(** *** [main] *)

(** The extension set of [--extensions] ([None] if absent or empty). *)
Definition parse_extensions (arg : option string) : option (list string) :=
  match arg with
  | None | Some EmptyString => None
  | Some a =>
      let extensions := py_set_of (map (fun e => str_lower (py_strip e)) (py_split_comma a)) in
      if forallb starts_with_dot extensions then Some extensions
      else Some (py_set_of (map dotted extensions))
  end.

(** The results [all_duplicates] holds, per method ([None]: not run). *)
Record all_duplicates := mkAllDuplicates {
  ad_size : option (list (Z * list VideoFile));
  ad_hash : option (list (string * list VideoFile));
  ad_name : option (list (string * list VideoFile));
  ad_duration : option (list (string * list VideoFile));
  ad_frames : option (list (string * list VideoFile))
}.

Definition run_detectors (args : main_args) (video_files : list VideoFile)
    : all_duplicates :=
  let m := a_method args in
  mkAllDuplicates
    (if runs m MSize then Some (detect_by_size video_files) else None)
    (if runs m MHash then Some (detect_by_hash video_files) else None)
    (if runs m MName then Some (detect_by_name_similarity (a_similarity args) video_files)
     else None)
    (if runs m MDuration
     then Some (detect_by_duration (a_duration_tolerance args) video_files) else None)
    (if runs m MFrames
     then Some (detect_by_duration_and_frames (a_duration_tolerance args)
                  (a_frame_similarity args) (a_extract_seconds args) video_files)
     else None).

(** [if "哈希值" in all_duplicates and all_duplicates["哈希值"]: ...
    elif "时长+画面" ...: ... elif "视频时长" ...: ...] *)
Definition delete_target (ad : all_duplicates)
    : option (method * list (string * list VideoFile)) :=
  match ad_hash ad with
  | Some (g :: gs) => Some (MHash, g :: gs)
  | _ =>
      match ad_frames ad with
      | Some (g :: gs) => Some (MFrames, g :: gs)
      | _ =>
          match ad_duration ad with
          | Some (g :: gs) => Some (MDuration, g :: gs)
          | _ => None
          end
      end
  end.

Inductive deletion_outcome : Type :=
| NoDeletion                  (* no [--delete] *)
| NoReliableResult            (* [没有足够可靠的重复文件检测结果可用于删除操作] *)
| Deletion (m : method) (r : nat * nat * FS * list delete_event).

Inductive main_outcome : Type :=
| BadDirectory                (* [sys.exit(1)] *)
| NoVideoFiles                (* [sys.exit(0)] *)
| Detected (video_files : list VideoFile) (ad : all_duplicates)
    (deletion : deletion_outcome).

(** [main()] on the parsed arguments, with the file system [fs] that
    [os.remove] acts on (the printed reports are not modelled). *)
Definition main (args : main_args) (fs : FS) : main_outcome :=
  if negb (a_directory_is_dir args) then BadDirectory
  else
    let extensions := detector_extensions (parse_extensions (a_extensions args)) in
    let '(video_files, _, _) := scan_video_files extensions [] in
    match video_files with
    | [] => NoVideoFiles
    | _ =>
        let ad := run_detectors args video_files in
        Detected video_files ad
          (if a_delete args then
             match delete_target ad with
             | Some (m, target) => Deletion m (delete_duplicates target (a_dry_run args) fs)
             | None => NoReliableResult
             end
           else NoDeletion)
    end.

(** ** Proofs *)

(** *** The stable size-descending sort *)

Lemma insert_by_size_desc_perm (x : VideoFile) (l : list VideoFile) :
  Permutation (insert_by_size_desc x l) (x :: l).
Proof.
  induction l as [|y l IH]; simpl; [auto|].
  destruct (Z.ltb (size y) (size x)); [auto|].
  eapply perm_trans; [apply perm_skip, IH|]. apply perm_swap.
Qed.

Lemma sorted_by_size_desc_snoc (l : list VideoFile) (y : VideoFile) :
  sorted_by_size_desc (l ++ [y]) = insert_by_size_desc y (sorted_by_size_desc l).
Proof. unfold sorted_by_size_desc. now rewrite fold_left_app. Qed.

Lemma sorted_by_size_desc_perm (l : list VideoFile) :
  Permutation (sorted_by_size_desc l) l.
Proof.
  induction l as [|y l IH] using rev_ind; [constructor|].
  rewrite sorted_by_size_desc_snoc.
  eapply perm_trans; [apply insert_by_size_desc_perm|].
  eapply perm_trans; [apply perm_skip, IH|].
  apply Permutation_cons_append.
Qed.

(** The head of the sorted list is the first file of maximum size: all
    files before it are strictly smaller, all after it at most as large,
    and the tail is the rest, in some order. *)
Lemma sorted_by_size_desc_head (l : list VideoFile) :
  l <> [] ->
  exists pre keep post rest,
    l = pre ++ keep :: post /\
    Forall (fun g => size g < size keep) pre /\
    Forall (fun g => size g <= size keep) post /\
    sorted_by_size_desc l = keep :: rest /\
    Permutation rest (pre ++ post).
Proof.
  induction l as [|y l IH] using rev_ind; [congruence|]. intros _.
  rewrite sorted_by_size_desc_snoc.
  destruct l as [|z l'].
  - exists [], y, [], []. simpl. repeat split; auto.
  - remember (z :: l') as l0 eqn:El0.
    destruct IH as (pre & keep & post & rest & Hl & Hpre & Hpost & Hs & Hp);
      [subst; congruence|].
    rewrite Hs. simpl.
    destruct (Z.ltb (size keep) (size y)) eqn:Hlt.
    + apply Z.ltb_lt in Hlt.
      exists l0, y, [], (keep :: rest). repeat split; auto.
      * rewrite Hl. apply Forall_app. split.
        -- eapply Forall_impl; [|exact Hpre]. simpl; intros; lia.
        -- constructor; [lia|].
           eapply Forall_impl; [|exact Hpost]. simpl; intros; lia.
      * rewrite app_nil_r, Hl. apply Permutation_sym.
        eapply perm_trans; [apply Permutation_sym, Permutation_middle|].
        apply perm_skip, Permutation_sym, Hp.
    + apply Z.ltb_ge in Hlt.
      exists pre, keep, (post ++ [y]), (insert_by_size_desc y rest).
      repeat split; auto.
      * rewrite Hl, <- app_assoc. reflexivity.
      * apply Forall_app. split; auto.
      * eapply perm_trans; [apply insert_by_size_desc_perm|].
        rewrite app_assoc. eapply perm_trans; [|apply Permutation_cons_append].
        apply perm_skip, Hp.
Qed.

Lemma files_to_delete_length (files : list VideoFile) :
  List.length (files_to_delete files) = (List.length files - 1)%nat.
Proof.
  unfold files_to_delete. rewrite length_skipn.
  now rewrite (Permutation_length (sorted_by_size_desc_perm files)).
Qed.

(** *** The deletion loop *)

Lemma loop_ran_nil (dry_run : bool) st : loop_ran dry_run st st [].
Proof.
  destruct st as [[[dc fc] fs] ev]. exists []. rewrite app_nil_r.
  unfold count_failed. simpl. repeat split; auto; lia.
Qed.

Lemma loop_ran_trans (dry_run : bool) st1 st2 st3 f1 f2 :
  loop_ran dry_run st1 st2 f1 -> loop_ran dry_run st2 st3 f2 ->
  loop_ran dry_run st1 st3 (f1 ++ f2).
Proof.
  destruct st1 as [[[dc1 fc1] fs1] ev1], st2 as [[[dc2 fc2] fs2] ev2],
    st3 as [[[dc3 fc3] fs3] ev3]; simpl.
  intros (n1 & E1 & P1 & C1 & F1 & D1 & R1) (n2 & E2 & P2 & C2 & F2 & D2 & R2).
  exists (n1 ++ n2). unfold count_failed in *.
  rewrite E2, E1, app_assoc, !map_app, P1, P2, !length_app, filter_app, length_app.
  split; [reflexivity|]. split; [reflexivity|]. split; [lia|]. split; [lia|].
  split.
  - intros Hd. destruct (D1 Hd) as (? & ? & ?), (D2 Hd) as (? & ? & ?).
    subst. split; [reflexivity|]. split; [lia|]. apply Forall_app; auto.
  - intros Hd. apply Forall_app; auto.
Qed.

Lemma delete_file_step_ran (dry_run : bool) st file :
  loop_ran dry_run st (delete_file_step dry_run st file) [file].
Proof.
  destruct st as [[[dc fc] fs] ev]. unfold delete_file_step.
  destruct dry_run.
  - exists [Simulated (path file)]. unfold count_failed. simpl.
    split; [reflexivity|]. split; [reflexivity|]. split; [lia|]. split; [lia|].
    split; [intros _; repeat constructor | discriminate].
  - destruct (os_remove fs (path file)) as [fs'|];
      [exists [Deleted (path file)] | exists [DeleteFailed (path file)]];
      unfold count_failed; simpl;
      (split; [reflexivity|]); (split; [reflexivity|]); (split; [lia|]);
      (split; [lia|]);
      (split; [discriminate | intros _; constructor; [discriminate | constructor]]).
Qed.

Lemma delete_files_ran (dry_run : bool) (files : list VideoFile) st :
  loop_ran dry_run st (fold_left (delete_file_step dry_run) files st) files.
Proof.
  revert st. induction files as [|f files IH]; intros st; simpl.
  - apply loop_ran_nil.
  - apply (loop_ran_trans _ _ (delete_file_step dry_run st f) _ [f] files);
      [apply delete_file_step_ran | apply IH].
Qed.

Lemma delete_groups_ran {K : Type} (dry_run : bool)
    (duplicates : list (K * list VideoFile)) st :
  loop_ran dry_run st (fold_left (delete_group_step dry_run) duplicates st)
    (flat_map marked_files duplicates).
Proof.
  revert st. induction duplicates as [|kv d IH]; intros st; simpl.
  - apply loop_ran_nil.
  - apply (loop_ran_trans _ _ (delete_group_step dry_run st kv)); [|apply IH].
    unfold delete_group_step, marked_files.
    destruct (Nat.leb (List.length (snd kv)) 1);
      [apply loop_ran_nil | apply delete_files_ran].
Qed.

Lemma total_to_delete_marked {K : Type} (duplicates : list (K * list VideoFile)) :
  total_to_delete duplicates = List.length (flat_map marked_files duplicates).
Proof.
  unfold total_to_delete.
  enough (forall t, fold_left (fun t kv => if Nat.ltb 1 (List.length (snd kv))
                       then t + (List.length (snd kv) - 1) else t)%nat duplicates t
                    = t + List.length (flat_map marked_files duplicates))%nat
    by (rewrite H; reflexivity).
  induction duplicates as [|kv d IH]; intros t; simpl; [lia|].
  rewrite IH, length_app. unfold marked_files.
  destruct (Nat.ltb_spec 1 (List.length (snd kv)));
    destruct (Nat.leb_spec (List.length (snd kv)) 1); try lia.
  - rewrite files_to_delete_length. lia.
  - simpl. lia.
Qed.

Lemma delete_duplicates_ran {K : Type} (duplicates : list (K * list VideoFile))
    (dry_run : bool) (fs : FS) :
  loop_ran dry_run (0%nat, 0%nat, fs, []) (delete_duplicates duplicates dry_run fs)
    (flat_map marked_files duplicates).
Proof.
  unfold delete_duplicates. destruct (Nat.eqb (total_to_delete duplicates) 0) eqn:E.
  - apply Nat.eqb_eq in E. rewrite total_to_delete_marked in E.
    destruct (flat_map marked_files duplicates); [|discriminate].
    apply loop_ran_nil.
  - apply delete_groups_ran.
Qed.

(** *** Claims about [delete_duplicates] *)

(** C1: in dry-run and in real mode alike, the files [delete_duplicates]
    goes through are, group by group, [sorted_files[1:]]; for every group
    of at least two files the kept file is the first file of maximum
    size in the group's stored order (every file before it is strictly
    smaller, every file after it at most as large), every other member is
    marked, and a member strictly larger than all others (members being
    distinct) is kept and not marked. *)
Theorem delete_duplicates_keeps_first_largest {K : Type}
    (duplicates : list (K * list VideoFile)) (dry_run : bool) (fs : FS) :
  (let '(_, _, _, events) := delete_duplicates duplicates dry_run fs in
   map event_path events = map path (flat_map marked_files duplicates)) /\
  (forall k files, In (k, files) duplicates -> (1 < List.length files)%nat ->
    marked_files (k, files) = files_to_delete files /\
    exists pre keep post,
      files = pre ++ keep :: post /\
      Forall (fun g => size g < size keep) pre /\
      Forall (fun g => size g <= size keep) post /\
      sorted_by_size_desc files = keep :: files_to_delete files /\
      Permutation (files_to_delete files) (pre ++ post) /\
      (NoDup files -> forall x, In x files ->
         (forall g, In g files -> size x <= size g -> g = x) ->
         x = keep /\ ~ In x (files_to_delete files))).
Proof.
  split.
  - pose proof (delete_duplicates_ran duplicates dry_run fs) as H.
    destruct (delete_duplicates duplicates dry_run fs) as [[[dc fc] fs'] ev].
    destruct H as (new & E & P & _). simpl in E. subst. exact P.
  - intros k files _ Hlen.
    split.
    { unfold marked_files. simpl.
      destruct (Nat.leb_spec (List.length files) 1); [lia|reflexivity]. }
    destruct (sorted_by_size_desc_head files) as
      (pre & keep & post & rest & Hf & Hpre & Hpost & Hs & Hp);
      [intros ->; simpl in Hlen; lia|].
    assert (Hrest : files_to_delete files = rest)
      by (unfold files_to_delete; rewrite Hs; reflexivity).
    rewrite Hrest.
    exists pre, keep, post.
    do 5 (split; [assumption|]).
    intros Hnd x Hin Hstrict.
      assert (Hxk : x = keep).
      { symmetry. apply Hstrict; [rewrite Hf; apply in_elt|].
        rewrite Hf in Hin. apply in_app_or in Hin as [Hin|[Heq|Hin]].
        - rewrite Forall_forall in Hpre. specialize (Hpre x Hin). lia.
        - subst. lia.
        - rewrite Forall_forall in Hpost. exact (Hpost x Hin). }
    split; [exact Hxk|]. subst x.
    intros Hin'. apply (Permutation_in _ Hp) in Hin'.
    rewrite Hf in Hnd. exact (NoDup_remove_2 _ _ _ Hnd Hin').
Qed.

(** C2: a dry run removes nothing: it leaves the file system as it was,
    reports every marked file as simulated with no failure, and a second
    dry run on the same groups (from the unchanged file system) gives the
    very same result, plan and events. *)
Theorem delete_duplicates_dry_run_idempotent {K : Type}
    (duplicates : list (K * list VideoFile)) (fs : FS) :
  let r := delete_duplicates duplicates true fs in
  let '(deleted_count, failed_count, fs', events) := r in
  fs' = fs /\ failed_count = 0%nat /\
  deleted_count = total_to_delete duplicates /\
  map event_path events = map path (flat_map marked_files duplicates) /\
  Forall (fun e => e = Simulated (event_path e)) events /\
  delete_duplicates duplicates true fs' = r.
Proof.
  pose proof (delete_duplicates_ran duplicates true fs) as H.
  simpl. destruct (delete_duplicates duplicates true fs) as [[[dc fc] fs'] ev] eqn:Er.
  destruct H as (new & E & P & C & F & D & _). simpl in E. subst ev.
  destruct (D eq_refl) as (Hfs & Hfc & Hsim). subst fs'.
  rewrite total_to_delete_marked.
  split; [reflexivity|]. split; [exact Hfc|]. split; [lia|].
  split; [exact P|]. split; [exact Hsim|]. rewrite Er. reflexivity.
Qed.

(** C7: in real mode every marked file of every group gets its own
    [os.remove] attempt, in order, whatever happened to the earlier ones;
    [failed_count] is the number of attempts that raised, and
    [deleted_count + failed_count] is the number of marked files. *)
Theorem delete_duplicates_failures_independent {K : Type}
    (duplicates : list (K * list VideoFile)) (fs : FS) :
  let '(deleted_count, failed_count, _, events) :=
    delete_duplicates duplicates false fs in
  map event_path events = map path (flat_map marked_files duplicates) /\
  Forall (fun e => e <> Simulated (event_path e)) events /\
  failed_count = count_failed events /\
  (deleted_count + failed_count = total_to_delete duplicates)%nat.
Proof.
  pose proof (delete_duplicates_ran duplicates false fs) as H.
  destruct (delete_duplicates duplicates false fs) as [[[dc fc] fs'] ev].
  destruct H as (new & E & P & C & F & _ & R). simpl in E. subst ev.
  rewrite total_to_delete_marked.
  split; [exact P|]. split; [exact (R eq_refl)|]. split; lia.
Qed.

(** *** Grouping by an exact key ([defaultdict(list)] appends) *)

Section GroupBy.
Context {A K V : Type} (eqbK : K -> K -> bool)
  (eqbK_spec : forall a b, reflect (a = b) (eqbK a b)).

Lemma dict_lookup_append (k k' : K) (v : V) (d : list (K * list V)) :
  dict_lookup eqbK k (dict_append eqbK k' v d) =
  if eqbK k k' then dict_lookup eqbK k d ++ [v] else dict_lookup eqbK k d.
Proof.
  induction d as [|[k0 vs] d IH]; simpl.
  - destruct (eqbK_spec k k'); reflexivity.
  - destruct (eqbK_spec k' k0) as [->|Hne]; simpl.
    + destruct (eqbK_spec k k0); reflexivity.
    + destruct (eqbK_spec k k0) as [->|]; [|exact IH].
      destruct (eqbK_spec k0 k'); [congruence|reflexivity].
Qed.

Lemma dict_append_key_in (k k1 : K) (v : V) (d : list (K * list V)) :
  In k1 (map fst (dict_append eqbK k v d)) -> k1 = k \/ In k1 (map fst d).
Proof.
  induction d as [|[k0 vs] d IH]; simpl.
  - intros [->|[]]. auto.
  - destruct (eqbK k k0); simpl; [tauto|]. intros [->|Hin]; [tauto|].
    destruct (IH Hin); tauto.
Qed.

Lemma dict_append_keys (k : K) (v : V) (d : list (K * list V)) :
  NoDup (map fst d) -> NoDup (map fst (dict_append eqbK k v d)).
Proof.
  induction d as [|[k0 vs] d IH]; simpl; intros Hnd.
  - repeat constructor; simpl; tauto.
  - inversion Hnd as [|? ? Hnin Hnd']; subst.
    destruct (eqbK_spec k k0) as [->|Hne]; simpl; constructor; auto.
    intros Hin. apply dict_append_key_in in Hin as [->|Hin]; auto.
Qed.

Lemma dict_lookup_in (k : K) (vs : list V) (d : list (K * list V)) :
  NoDup (map fst d) -> In (k, vs) d -> dict_lookup eqbK k d = vs.
Proof.
  induction d as [|[k0 vs0] d IH]; simpl; [tauto|]. intros Hnd [Heq|Hin].
  - inversion Heq; subst. destruct (eqbK_spec k k); congruence.
  - inversion Hnd; subst. destruct (eqbK_spec k k0) as [->|]; [|auto].
    exfalso. apply H1. apply (in_map fst) in Hin. exact Hin.
Qed.

Variable key : A -> option K.
Variable tr : A -> V.

Lemma group_fold_keys (l : list A) (d : list (K * list V)) :
  NoDup (map fst d) -> NoDup (map fst (fold_left (group_step eqbK key tr) l d)).
Proof.
  revert d. induction l as [|x l IH]; intros d Hnd; simpl; [exact Hnd|].
  apply IH. unfold group_step. destruct (key x); [apply dict_append_keys|]; auto.
Qed.

Lemma group_fold_lookup (l : list A) (d : list (K * list V)) (k : K) :
  dict_lookup eqbK k (fold_left (group_step eqbK key tr) l d) =
  dict_lookup eqbK k d ++ map tr (filter (has_key eqbK key k) l).
Proof.
  revert d. induction l as [|x l IH]; intros d; simpl.
  - now rewrite app_nil_r.
  - rewrite IH. unfold group_step, has_key. destruct (key x) as [k'|].
    + rewrite dict_lookup_append. destruct (eqbK k k'); simpl.
      * now rewrite <- app_assoc.
      * reflexivity.
    + reflexivity.
Qed.

(** Every entry of the grouping of [l] holds, in the order of [l], the
    elements of [l] that have its key. *)
Lemma group_fold_entry (l : list A) (k : K) (vs : list V) :
  In (k, vs) (fold_left (group_step eqbK key tr) l []) -> vs = map tr (filter (has_key eqbK key k) l).
Proof.
  intros Hin.
  rewrite <- (dict_lookup_in k vs (fold_left (group_step eqbK key tr) l [])).
  - rewrite group_fold_lookup. reflexivity.
  - apply group_fold_keys. constructor.
  - exact Hin.
Qed.
End GroupBy.

Lemma in_keep_duplicate_groups {K V : Type} (k : K) (vs : list V)
    (d : list (K * list V)) :
  In (k, vs) (keep_duplicate_groups d) -> In (k, vs) d /\ (1 < List.length vs)%nat.
Proof.
  unfold keep_duplicate_groups. rewrite filter_In. simpl.
  intros [H1 H2]. apply Nat.ltb_lt in H2. auto.
Qed.

Lemma size_groups_as_group_fold (video_files : list VideoFile) :
  size_groups video_files =
  fold_left (group_step Z.eqb (fun f => Some (size f)) (fun f => f)) video_files [].
Proof. reflexivity. Qed.

Lemma hash_groups_as_group_fold (video_files : list VideoFile) :
  hash_groups video_files =
  fold_left (group_step String.eqb hash_key
               (fun f => set_hash_md5 f (calculate_file_hash (path f))))
    video_files [].
Proof.
  unfold hash_groups.
  enough (forall d, fold_left hash_step video_files d =
    fold_left (group_step String.eqb hash_key
               (fun f => set_hash_md5 f (calculate_file_hash (path f))))
    video_files d) by auto.
  induction video_files as [|f l IH]; intros d; simpl; [reflexivity|].
  rewrite IH. unfold hash_step, group_step, hash_key.
  destruct (String.eqb (calculate_file_hash (path f)) EmptyString); reflexivity.
Qed.

Lemma size_group_entry (video_files : list VideoFile) (k : Z) (vs : list VideoFile) :
  In (k, vs) (size_groups video_files) ->
  vs = filter (fun f => Z.eqb (size f) k) video_files.
Proof.
  rewrite size_groups_as_group_fold. intros Hin.
  apply (group_fold_entry Z.eqb Z.eqb_spec) in Hin. rewrite map_id in Hin.
  rewrite Hin. apply filter_ext. intros f. unfold has_key. apply Z.eqb_sym.
Qed.

Lemma hash_group_entry (video_files : list VideoFile) (h : string)
    (vs : list VideoFile) :
  In (h, vs) (hash_groups video_files) -> vs <> [] ->
  h <> EmptyString /\
  vs = map (fun f => set_hash_md5 f h)
         (filter (fun f => String.eqb (calculate_file_hash (path f)) h) video_files).
Proof.
  rewrite hash_groups_as_group_fold. intros Hin Hne.
  apply (group_fold_entry String.eqb String.eqb_spec) in Hin.
  assert (Hf : forall f, has_key String.eqb hash_key h f = true ->
               calculate_file_hash (path f) = h /\ h <> EmptyString).
  { intros f. unfold has_key, hash_key.
    destruct (String.eqb_spec (calculate_file_hash (path f)) EmptyString)
      as [|Hn]; [discriminate|].
    intros E. apply String.eqb_eq in E. subst. auto. }
  assert (Hh : h <> EmptyString).
  { destruct (filter (has_key String.eqb hash_key h) video_files) as [|f l] eqn:E.
    - subst vs. contradiction.
    - assert (In f (filter (has_key String.eqb hash_key h) video_files))
        by (rewrite E; left; reflexivity).
      apply filter_In in H as [_ H]. apply Hf in H. tauto. }
  split; [exact Hh|]. rewrite Hin.
  rewrite (filter_ext _ (fun f => String.eqb (calculate_file_hash (path f)) h)).
  - apply map_ext_in. intros f Hin'. apply filter_In in Hin' as [_ E].
    apply String.eqb_eq in E. now rewrite E.
  - intros f. destruct (has_key String.eqb hash_key h f) eqn:E.
    + apply Hf in E as [E _]. symmetry. now apply String.eqb_eq.
    + symmetry. apply not_true_iff_false. intros E'. apply String.eqb_eq in E'.
      revert E. unfold has_key, hash_key. rewrite E'.
      destruct (String.eqb_spec h EmptyString); [contradiction|].
      rewrite String.eqb_refl. discriminate.
Qed.

(** *** Claims about the exact-key detectors *)


(** C6: a file whose content cannot be read gets the digest [""] and is
    in no hash group: every member of every group returned by
    [detect_by_hash] is an inventory file whose read succeeded, with the
    digest of the group; the method always returns, and every readable
    file with a digest is filed under that digest. *)
Theorem detect_by_hash_skips_unreadable (video_files : list VideoFile) :
  (forall h vs, In (h, vs) (detect_by_hash video_files) ->
     h <> EmptyString /\
     forall g, In g vs ->
       exists f chunks,
         In f video_files /\ read_file_chunks (path f) = Some chunks /\
         md5_hexdigest (List.concat chunks) = h /\ g = set_hash_md5 f h) /\
  (forall f, In f video_files -> read_file_chunks (path f) = None ->
     forall h vs g, In (h, vs) (detect_by_hash video_files) -> In g vs ->
     path g <> path f) /\
  (forall f chunks, In f video_files -> read_file_chunks (path f) = Some chunks ->
     md5_hexdigest (List.concat chunks) <> EmptyString ->
     In (set_hash_md5 f (md5_hexdigest (List.concat chunks)))
        (dict_lookup String.eqb (md5_hexdigest (List.concat chunks))
           (hash_groups video_files))).
Proof.
  assert (Hmem : forall h vs, In (h, vs) (detect_by_hash video_files) ->
     h <> EmptyString /\
     forall g, In g vs ->
       exists f chunks,
         In f video_files /\ read_file_chunks (path f) = Some chunks /\
         md5_hexdigest (List.concat chunks) = h /\ g = set_hash_md5 f h).
  { intros h vs Hin. apply in_keep_duplicate_groups in Hin as [Hin Hlen].
    apply hash_group_entry in Hin as [Hh E]; [|intros ->; simpl in Hlen; lia].
    split; [exact Hh|]. intros g Hg. rewrite E in Hg.
    apply in_map_iff in Hg as (f & <- & Hf). apply filter_In in Hf as [Hf Eh].
    apply String.eqb_eq in Eh. unfold calculate_file_hash in Eh.
    destruct (read_file_chunks (path f)) as [chunks|] eqn:Er.
    - exists f, chunks. auto.
    - subst h. contradiction. }
  split; [exact Hmem|]. split.
  - intros f Hf Hnone h vs g Hin Hg Hp.
    destruct (Hmem h vs Hin) as [Hh Hall].
    destruct (Hall g Hg) as (f' & chunks & _ & Hr & _ & ->).
    simpl in Hp. rewrite Hp, Hnone in Hr. discriminate.
  - intros f chunks Hf Hr Hne.
    rewrite hash_groups_as_group_fold, group_fold_lookup; [|apply String.eqb_spec].
    simpl. apply in_map_iff. exists f. split.
    + unfold calculate_file_hash. now rewrite Hr.
    + apply filter_In. split; [exact Hf|]. unfold has_key, hash_key, calculate_file_hash.
      rewrite Hr. destruct (String.eqb_spec (md5_hexdigest (List.concat chunks)) EmptyString);
        [contradiction|]. apply String.eqb_refl.
Qed.

(** *** The greedy loops compute the spec's clustering *)

Lemma greedy_clusters_fuel_enough {A : Type} (m : A -> A -> bool) (l : list A)
    (n : nat) :
  (List.length l <= n)%nat ->
  greedy_clusters_fuel m n l = greedy_clusters_fuel m (List.length l) l.
Proof.
  enough (forall n n' l, (List.length l <= n)%nat -> (List.length l <= n')%nat ->
            greedy_clusters_fuel m n l = greedy_clusters_fuel m n' l)
    by (intros; apply H; auto).
  clear. induction n as [|n IH]; intros n' l H1 H2.
  - destruct l; [|simpl in H1; lia]. destruct n'; reflexivity.
  - destruct l as [|x rest].
    + destruct n'; reflexivity.
    + destruct n' as [|n']; [simpl in H2; lia|]. simpl. f_equal.
      apply IH; simpl in *;
        (eapply Nat.le_trans; [apply filter_length_le|]; lia).
Qed.

Lemma in_set_cons (j i : nat) (s : list nat) :
  in_set j (i :: s) = Nat.eqb j i || in_set j s.
Proof. reflexivity. Qed.

Lemma filter_and {A : Type} (f g : A -> bool) (l : list A) :
  filter f (filter g l) = filter (fun x => g x && f x) l.
Proof.
  induction l as [|x l IH]; simpl; [reflexivity|].
  destruct (g x); simpl; [destruct (f x); simpl|]; rewrite IH; reflexivity.
Qed.

Lemma existsb_unique_index {B : Type} (f : B -> bool) (l : list (nat * B))
    (j : nat) (y : B) :
  NoDup (map fst l) -> In (j, y) l ->
  existsb (fun q => Nat.eqb j (fst q) && f (snd q)) l = f y.
Proof.
  induction l as [|[j0 y0] l IH]; simpl; [tauto|]. intros Hnd [Heq|Hin].
  - inversion Heq; subst. rewrite Nat.eqb_refl. simpl.
    inversion Hnd; subst.
    assert (existsb (fun q => Nat.eqb j (fst q) && f (snd q)) l = false) as ->.
    { apply not_true_iff_false. intros Hex. apply existsb_exists in Hex
        as ([j1 y1] & Hin1 & E1). apply andb_true_iff in E1 as [E1 _].
      apply Nat.eqb_eq in E1. simpl in E1. subst j1. apply H1.
      apply (in_map fst) in Hin1. exact Hin1. }
    apply orb_false_r.
  - inversion Hnd; subst. rewrite IH by assumption.
    destruct (Nat.eqb_spec j j0) as [->|]; [|reflexivity].
    exfalso. apply H1. apply (in_map fst) in Hin. exact Hin.
Qed.

Lemma greedy_scan_groups (mx : VideoFile -> bool) (k : string)
    (js : list (nat * VideoFile)) (processed : list nat)
    (groups : list (string * list VideoFile)) :
  NoDup (map fst js) ->
  snd (greedy_scan mx k js processed groups) =
  fold_left (fun g p => dict_append String.eqb k (snd p) g)
    (filter (fun p => unprocessed processed p && mx (snd p)) js) groups.
Proof.
  revert processed groups.
  induction js as [|[j y] js IH]; intros processed groups Hnd; simpl;
    [reflexivity|].
  inversion Hnd as [|? ? Hj Hnd']; subst.
  simpl. change (unprocessed processed (j, y)) with (negb (in_set j processed)).
  destruct (in_set j processed) eqn:Ej; simpl; [apply IH; exact Hnd'|].
  destruct (mx y) eqn:Ey; simpl; [|apply IH; exact Hnd'].
  rewrite IH by exact Hnd'. f_equal. apply filter_ext_in. intros [j2 y2] Hin.
  unfold unprocessed; cbn [fst]. rewrite in_set_cons.
  assert (Nat.eqb j2 j = false) as ->; [|reflexivity].
  apply Nat.eqb_neq. intros ->. apply Hj. apply (in_map fst) in Hin. exact Hin.
Qed.

Lemma greedy_scan_processed (mx : VideoFile -> bool) (k : string)
    (js : list (nat * VideoFile)) (processed : list nat)
    (groups : list (string * list VideoFile)) (j : nat) :
  in_set j (fst (greedy_scan mx k js processed groups)) =
  in_set j processed || existsb (fun p => Nat.eqb j (fst p) && mx (snd p)) js.
Proof.
  revert processed groups.
  induction js as [|[j0 y] js IH]; intros processed groups; simpl.
  - now rewrite orb_false_r.
  - destruct (in_set j0 processed) eqn:E0.
    + rewrite IH. destruct (Nat.eqb_spec j j0) as [->|]; simpl.
      * now rewrite E0.
      * reflexivity.
    + destruct (mx y); rewrite IH; [rewrite in_set_cons|];
        destruct (Nat.eqb j j0), (in_set j processed); reflexivity.
Qed.

(** The two loops of [detect_by_name_similarity] / [detect_by_duration]
    append the spec's greedy clusters of the not yet processed files, in
    order, each under its representative's key. *)
Lemma greedy_outer_spec (key_of : nat -> VideoFile -> string)
    (m : VideoFile -> VideoFile -> bool) (items : list (nat * VideoFile))
    (processed : list nat) (groups : list (string * list VideoFile)) :
  NoDup (map fst items) ->
  greedy_outer key_of m items processed groups =
  fold_left (emit_cluster key_of)
    (greedy_clusters (on_file m) (filter (unprocessed processed) items)) groups.
Proof.
  revert processed groups.
  induction items as [|[i x] rest IH]; intros processed groups Hnd; simpl;
    [reflexivity|].
  inversion Hnd as [|? ? Hi Hnd']; subst.
  simpl. change (unprocessed processed (i, x)) with (negb (in_set i processed)).
  destruct (in_set i processed) eqn:Ei; simpl; [apply IH; exact Hnd'|].
  destruct (greedy_scan (m x) (key_of i x) rest (i :: processed)
              (dict_append String.eqb (key_of i x) x groups)) as [P2 g2] eqn:Es.
  rewrite IH by exact Hnd'.
  unfold greedy_clusters. simpl.
  set (R := filter (unprocessed processed) rest).
  assert (Hrest : forall j y, In (j, y) rest -> Nat.eqb j i = false).
  { intros j y Hin. apply Nat.eqb_neq. intros ->. apply Hi.
    apply (in_map fst) in Hin. exact Hin. }
  assert (HP2 : filter (unprocessed P2) rest =
                filter (fun y => negb (on_file m (i, x) y)) R).
  { unfold R. rewrite filter_and. apply filter_ext_in. intros [j y] Hin.
    pose proof (greedy_scan_processed (m x) (key_of i x) rest (i :: processed)
                  (dict_append String.eqb (key_of i x) x groups) j) as E.
    rewrite Es in E. cbn [fst] in E. unfold unprocessed, on_file; cbn [fst snd].
    rewrite E, in_set_cons, (Hrest j y Hin).
    rewrite (existsb_unique_index (m x) rest j y Hnd' Hin). simpl.
    now rewrite negb_orb. }
  assert (Hg2 : g2 = fold_left (fun g p => dict_append String.eqb (key_of i x) (snd p) g)
                       (filter (on_file m (i, x)) R)
                       (dict_append String.eqb (key_of i x) x groups)).
  { pose proof (greedy_scan_groups (m x) (key_of i x) rest (i :: processed)
                  (dict_append String.eqb (key_of i x) x groups) Hnd') as E.
    rewrite Es in E. simpl in E. rewrite E. f_equal.
    unfold R. rewrite filter_and. apply filter_ext_in. intros [j y] Hin.
    unfold unprocessed, on_file; cbn [fst snd]. rewrite in_set_cons, (Hrest j y Hin).
    reflexivity. }
  rewrite HP2, Hg2.
  rewrite (greedy_clusters_fuel_enough (on_file m) _ (List.length R)).
  - reflexivity.
  - apply filter_length_le.
Qed.

Lemma existsb_unique_path {B : Type} (f : B -> bool) (l : list (string * B))
    (j : string) (y : B) :
  NoDup (map fst l) -> In (j, y) l ->
  existsb (fun q => String.eqb j (fst q) && f (snd q)) l = f y.
Proof.
  induction l as [|[j0 y0] l IH]; simpl; [tauto|]. intros Hnd [Heq|Hin].
  - inversion Heq; subst. rewrite String.eqb_refl. simpl.
    inversion Hnd; subst.
    assert (existsb (fun q => String.eqb j (fst q) && f (snd q)) l = false) as ->.
    { apply not_true_iff_false. intros Hex. apply existsb_exists in Hex
        as ([j1 y1] & Hin1 & E1). apply andb_true_iff in E1 as [E1 _].
      apply String.eqb_eq in E1. simpl in E1. subst j1. apply H1.
      apply (in_map fst) in Hin1. exact Hin1. }
    apply orb_false_r.
  - inversion Hnd; subst. rewrite IH by assumption.
    destruct (String.eqb_spec j j0) as [->|]; [|reflexivity].
    exfalso. apply H1. apply (in_map fst) in Hin. exact Hin.
Qed.

Lemma in_paths_cons (q p : string) (s : list string) :
  in_paths q (p :: s) = String.eqb q p || in_paths q s.
Proof. reflexivity. Qed.

Lemma frames_scan_files (threshold : float) (frames1 : list thumb)
    (js : list (string * (VideoFile * list thumb))) (processed : list string)
    (similar_files : list VideoFile) :
  NoDup (map fst js) ->
  snd (frames_scan threshold frames1 js processed similar_files) =
  similar_files ++
    map (fun p => fst (snd p))
      (filter (fun p => unprocessed_path processed p &&
                 PrimFloat.leb threshold
                   (calculate_frame_similarity frames1 (snd (snd p)))) js).
Proof.
  revert processed similar_files.
  induction js as [|[q [f fr]] js IH]; intros processed sims Hnd; simpl.
  - now rewrite app_nil_r.
  - inversion Hnd as [|? ? Hq Hnd']; subst.
    change (unprocessed_path processed (q, (f, fr))) with
      (negb (in_paths q processed)).
    destruct (in_paths q processed) eqn:Eq; simpl; [apply IH; exact Hnd'|].
    destruct (PrimFloat.leb threshold (calculate_frame_similarity frames1 fr));
      simpl; [|apply IH; exact Hnd'].
    rewrite IH by exact Hnd'. rewrite <- app_assoc. simpl. do 3 f_equal.
    apply filter_ext_in. intros [q2 y2] Hin.
    unfold unprocessed_path; cbn [fst]. rewrite in_paths_cons.
    assert (String.eqb q2 q = false) as ->; [|reflexivity].
    apply String.eqb_neq. intros ->. apply Hq. apply (in_map fst) in Hin. exact Hin.
Qed.

Lemma frames_scan_processed (threshold : float) (frames1 : list thumb)
    (js : list (string * (VideoFile * list thumb))) (processed : list string)
    (similar_files : list VideoFile) (q : string) :
  in_paths q (fst (frames_scan threshold frames1 js processed similar_files)) =
  in_paths q processed ||
    existsb (fun p => String.eqb q (fst p) &&
               PrimFloat.leb threshold
                 (calculate_frame_similarity frames1 (snd (snd p)))) js.
Proof.
  revert processed similar_files.
  induction js as [|[q0 [f fr]] js IH]; intros processed sims; simpl.
  - now rewrite orb_false_r.
  - destruct (in_paths q0 processed) eqn:E0.
    + rewrite IH. destruct (String.eqb_spec q q0) as [->|]; simpl.
      * now rewrite E0.
      * reflexivity.
    + destruct (PrimFloat.leb threshold (calculate_frame_similarity frames1 fr));
        rewrite IH; [rewrite in_paths_cons|];
        destruct (String.eqb q q0), (in_paths q processed); reflexivity.
Qed.

Lemma filter_all_false {A : Type} (f : A -> bool) (l : list A) :
  (forall x, In x l -> f x = false) -> filter f l = [].
Proof.
  induction l as [|x l IH]; simpl; intros H; [reflexivity|].
  rewrite (H x (or_introl eq_refl)). apply IH. intros y Hy. apply H. now right.
Qed.

(** The two loops of the frame comparison store, in order, the spec's
    greedy clusters of the [file_frames] entries not yet processed, when
    they have at least two files; [all_items] is scanned in full by the
    inner loop, but its entries before [items] are already processed. *)
Lemma frames_outer_spec (threshold : float) (group_key : string)
    (all_items items : list (string * (VideoFile * list thumb)))
    (processed : list string) (count : nat)
    (frame_duplicates : list (string * list VideoFile)) :
  NoDup (map fst all_items) ->
  (exists pre, all_items = pre ++ items /\
               Forall (fun p => in_paths (fst p) processed = true) pre) ->
  frames_outer threshold group_key all_items items processed count frame_duplicates =
  emit_frame_groups group_key
    (greedy_clusters (frame_matches threshold)
       (filter (unprocessed_path processed) items)) count frame_duplicates.
Proof.
  intros Hnd. revert processed count frame_duplicates.
  induction items as [|[p1 [f1 fr1]] items IH];
    intros processed count acc (pre & Hall & Hpre); simpl; [reflexivity|].
  assert (Hnd2 := Hnd). rewrite Hall, map_app in Hnd2. simpl in Hnd2.
  pose proof (NoDup_remove_2 _ _ _ Hnd2) as Hp1. rewrite in_app_iff in Hp1.
  apply NoDup_remove_1 in Hnd2.
  assert (Hitems : forall q y, In (q, y) items -> String.eqb q p1 = false).
  { intros q y Hin. apply String.eqb_neq. intros ->. apply Hp1. right.
    apply (in_map fst) in Hin. exact Hin. }
  assert (Hin_all : forall p, In p items -> In p all_items).
  { intros p Hin. rewrite Hall. apply in_or_app. right. right. exact Hin. }
  change (unprocessed_path processed (p1, (f1, fr1)))
    with (negb (in_paths p1 processed)).
  destruct (in_paths p1 processed) eqn:E1; simpl.
  - apply IH. exists (pre ++ [(p1, (f1, fr1))]). split.
    + rewrite Hall, <- app_assoc. reflexivity.
    + apply Forall_app. split; [exact Hpre|]. constructor; [exact E1|constructor].
  - destruct (frames_scan threshold fr1 all_items (p1 :: processed) [f1])
      as [P2 sims] eqn:Es.
    set (R := filter (unprocessed_path processed) items).
    set (x := (p1, (f1, fr1))).
    assert (Hsims : sims = map (fun p => fst (snd p))
                             (x :: filter (frame_matches threshold x) R)).
    { pose proof (frames_scan_files threshold fr1 all_items (p1 :: processed) [f1] Hnd)
        as E. rewrite Es in E. cbn [snd] in E. rewrite E. simpl. f_equal.
      rewrite Hall, filter_app, filter_all_false.
      - simpl. unfold unprocessed_path at 1. cbn [fst]. rewrite in_paths_cons,
          String.eqb_refl. simpl. f_equal.
        unfold R. rewrite filter_and. apply filter_ext_in. intros [q y] Hin.
        unfold unprocessed_path, frame_matches; cbn [fst snd].
        rewrite in_paths_cons, (Hitems q y Hin). reflexivity.
      - intros [q y] Hin. rewrite Forall_forall in Hpre.
        specialize (Hpre (q, y) Hin). unfold unprocessed_path. cbn [fst snd] in *.
        rewrite in_paths_cons, Hpre, orb_true_r. reflexivity. }
    assert (HP2 : filter (unprocessed_path P2) items =
                  filter (fun y => negb (frame_matches threshold x y)) R).
    { unfold R. rewrite filter_and. apply filter_ext_in. intros [q y] Hin.
      pose proof (frames_scan_processed threshold fr1 all_items (p1 :: processed)
                    [f1] q) as E.
      rewrite Es in E. cbn [fst] in E. unfold unprocessed_path; cbn [fst].
      rewrite E, in_paths_cons, (Hitems q y Hin).
      rewrite (existsb_unique_path
                 (fun y => PrimFloat.leb threshold
                             (calculate_frame_similarity fr1 (snd y)))
                 all_items q y Hnd (Hin_all _ Hin)).
      unfold frame_matches. simpl. now rewrite negb_orb. }
    assert (Hpre2 : Forall (fun p => in_paths (fst p) P2 = true) (pre ++ [x])).
    { apply Forall_forall. intros [q y] Hin.
      pose proof (frames_scan_processed threshold fr1 all_items (p1 :: processed)
                    [f1] q) as E.
      rewrite Es in E. cbn [fst] in E. cbn [fst]. rewrite E, in_paths_cons.
      apply in_app_or in Hin as [Hin|[Heq|[]]].
      - rewrite Forall_forall in Hpre. specialize (Hpre _ Hin). cbn [fst] in Hpre.
        now rewrite Hpre, orb_true_r.
      - inversion Heq; subst. now rewrite String.eqb_refl. }
    assert (Hall2 : all_items = (pre ++ [x]) ++ items)
      by (rewrite Hall, <- app_assoc; reflexivity).
    rewrite Hsims, length_map. cbn [List.length].
    rewrite (greedy_clusters_fuel_enough (frame_matches threshold) _ (List.length R))
      by apply filter_length_le.
    destruct (Nat.ltb 1 (S (List.length (filter (frame_matches threshold x) R))));
      rewrite IH by (exists (pre ++ [x]); split; assumption);
      rewrite HP2; reflexivity.
Qed.

Lemma enumerate_keys {A : Type} (n : nat) (l : list A) :
  map fst (enumerate n l) = seq n (List.length l).
Proof.
  revert n. induction l as [|x l IH]; intros n; simpl; [reflexivity|].
  now rewrite IH.
Qed.

Lemma enumerate_nodup {A : Type} (n : nat) (l : list A) :
  NoDup (map fst (enumerate n l)).
Proof. rewrite enumerate_keys. apply seq_NoDup. Qed.

Lemma filter_unprocessed_nil (items : list (nat * VideoFile)) :
  filter (unprocessed []) items = items.
Proof. induction items as [|x l IH]; simpl; [reflexivity|]. now rewrite IH. Qed.

Lemma filter_unprocessed_path_nil (items : list (string * (VideoFile * list thumb))) :
  filter (unprocessed_path []) items = items.
Proof. induction items as [|x l IH]; simpl; [reflexivity|]. now rewrite IH. Qed.

Lemma dict_set_key_in {K V : Type} (eqbK : K -> K -> bool) (k k1 : K) (v : V)
    (d : list (K * V)) :
  In k1 (map fst (dict_set eqbK k v d)) -> k1 = k \/ In k1 (map fst d).
Proof.
  induction d as [|[k0 v0] d IH]; simpl.
  - intros [->|[]]. auto.
  - destruct (eqbK k k0); simpl; [tauto|]. intros [->|Hin]; [tauto|].
    destruct (IH Hin); tauto.
Qed.

Lemma dict_set_keys {K V : Type} (eqbK : K -> K -> bool)
    (eqbK_spec : forall a b, reflect (a = b) (eqbK a b)) (k : K) (v : V)
    (d : list (K * V)) :
  NoDup (map fst d) -> NoDup (map fst (dict_set eqbK k v d)).
Proof.
  induction d as [|[k0 v0] d IH]; simpl; intros Hnd.
  - repeat constructor; simpl; tauto.
  - inversion Hnd as [|? ? Hnin Hnd']; subst.
    destruct (eqbK_spec k k0) as [->|Hne]; simpl; constructor; auto.
    intros Hin. apply dict_set_key_in in Hin as [->|Hin]; auto.
Qed.

Lemma collect_file_frames_keys (extract_seconds : float) (files : list VideoFile) :
  NoDup (map fst (collect_file_frames extract_seconds files)).
Proof.
  unfold collect_file_frames.
  enough (forall ff, NoDup (map fst ff) -> NoDup (map fst (fold_left
    (fun ff video_file =>
       match extract_video_frames (path video_file) extract_seconds with
       | [] => ff
       | middle_frames =>
           dict_set String.eqb (path video_file) (video_file, middle_frames) ff
       end) files ff))) by (apply H; constructor).
  induction files as [|f files IH]; intros ff Hnd; simpl; [exact Hnd|].
  apply IH. destruct (extract_video_frames (path f) extract_seconds); [exact Hnd|].
  apply dict_set_keys; [apply String.eqb_spec|exact Hnd].
Qed.

Lemma emit_frame_groups_short (group_key : string)
    (l : list (string * (VideoFile * list thumb))) (threshold : float) (count : nat)
    (acc : list (string * list VideoFile)) :
  (List.length l <= 1)%nat ->
  emit_frame_groups group_key (greedy_clusters (frame_matches threshold) l) count acc
  = acc.
Proof.
  destruct l as [|y [|z l]]; simpl; intros H; [reflexivity|reflexivity|lia].
Qed.

Lemma greedy_clusters_fuel_shape {A : Type} (m : A -> A -> bool) (n : nat)
    (l : list A) (c : list A) :
  In c (greedy_clusters_fuel m n l) ->
  exists rep members, c = rep :: members /\ Forall (fun y => m rep y = true) members.
Proof.
  revert l. induction n as [|n IH]; intros l; simpl; [tauto|].
  destruct l as [|x rest]; simpl; [tauto|]. intros [<-|Hin].
  - exists x, (filter (m x) rest). split; [reflexivity|].
    apply Forall_forall. intros y Hy. apply filter_In in Hy. tauto.
  - exact (IH _ Hin).
Qed.

Lemma duration_groups_spec (duration_tolerance : float) (video_files : list VideoFile) :
  duration_groups duration_tolerance video_files =
  fold_left (emit_cluster duration_key)
    (greedy_clusters (on_file (duration_matches duration_tolerance))
       (enumerate 0 (valid_duration_files video_files))) [].
Proof.
  unfold duration_groups.
  rewrite greedy_outer_spec by apply enumerate_nodup.
  now rewrite filter_unprocessed_nil.
Qed.

Lemma frames_group_step_spec :
  forall threshold extract_seconds frame_duplicates group_key files,
    frames_group_step threshold extract_seconds frame_duplicates (group_key, files) =
    if Nat.ltb (List.length files) 2 then frame_duplicates
    else emit_frame_groups group_key
           (greedy_clusters (frame_matches threshold)
              (collect_file_frames extract_seconds files)) 0 frame_duplicates.
Proof.
  intros thr secs acc gk files. unfold frames_group_step.
  destruct (Nat.ltb (List.length files) 2); [reflexivity|].
  set (ff := collect_file_frames secs files).
  destruct (Nat.ltb_spec 0 (List.length ff * (List.length ff - 1) / 2)) as [Hlt|Hge].
  + rewrite frames_outer_spec.
    * now rewrite filter_unprocessed_path_nil.
    * apply collect_file_frames_keys.
    * exists []. split; [reflexivity|constructor].
  + symmetry. apply emit_frame_groups_short.
    destruct (List.length ff) as [|[|n]]; [lia|lia|].
    exfalso. assert (0 < S (S n) * (S (S n) - 1) / 2)%nat; [|lia].
    apply Nat.div_str_pos. nia.
Qed.

(** *** Claims about the greedy detectors *)

(** C3 (amended): the name and duration detectors store, in order, the
    spec's greedy clusters of their files (each later file compared with
    the cluster's representative only), each cluster under its
    representative's key; the frame refinement of a duration group stores
    the greedy clusters of its extracted files that have at least two
    members; and every cluster is its representative followed by files
    that match the representative. A file that matches a member but not
    the representative is thus not in that cluster: it is clustered
    among the files left for later representatives. *)
Theorem greedy_representative_clustering :
  (forall similarity_threshold video_files,
     detect_by_name_similarity similarity_threshold video_files =
     keep_duplicate_groups
       (fold_left (emit_cluster name_key)
          (greedy_clusters (on_file (name_matches similarity_threshold))
             (enumerate 0 video_files)) [])) /\
  (forall duration_tolerance video_files,
     duration_groups duration_tolerance video_files =
     fold_left (emit_cluster duration_key)
       (greedy_clusters (on_file (duration_matches duration_tolerance))
          (enumerate 0 (valid_duration_files video_files))) []) /\
  (forall threshold extract_seconds frame_duplicates group_key files,
     frames_group_step threshold extract_seconds frame_duplicates (group_key, files) =
     if Nat.ltb (List.length files) 2 then frame_duplicates
     else emit_frame_groups group_key
            (greedy_clusters (frame_matches threshold)
               (collect_file_frames extract_seconds files)) 0 frame_duplicates) /\
  (forall (A : Type) (m : A -> A -> bool) l c, In c (greedy_clusters m l) ->
     exists rep members, c = rep :: members /\
       Forall (fun y => m rep y = true) members).
Proof.
  split; [|split; [|split]].
  - intros thr files. unfold detect_by_name_similarity. f_equal.
    rewrite greedy_outer_spec by apply enumerate_nodup.
    now rewrite filter_unprocessed_nil.
  - apply duration_groups_spec.
  - apply frames_group_step_spec.
  - intros A m l c. apply greedy_clusters_fuel_shape.
Qed.

Lemma dict_set_in {K V : Type} (eqbK : K -> K -> bool) (k : K) (v : V)
    (d : list (K * V)) (e : K * V) :
  In e (dict_set eqbK k v d) -> snd e = v \/ In e d.
Proof.
  induction d as [|[k0 v0] d IH]; simpl.
  - intros [<-|[]]. auto.
  - destruct (eqbK k k0); simpl.
    + intros [<-|Hin]; auto.
    + intros [<-|Hin]; [auto|]. destruct (IH Hin); auto.
Qed.

Lemma collect_file_frames_entries (extract_seconds : float) (files : list VideoFile)
    (e : string * (VideoFile * list thumb)) :
  In e (collect_file_frames extract_seconds files) ->
  In (fst (snd e)) files /\
  snd (snd e) = extract_video_frames (path (fst (snd e))) extract_seconds /\
  snd (snd e) <> [].
Proof.
  unfold collect_file_frames.
  enough (forall ff, (forall e, In e ff -> In (fst (snd e)) files /\
            snd (snd e) = extract_video_frames (path (fst (snd e))) extract_seconds /\
            snd (snd e) <> []) ->
          forall fs, (forall f, In f fs -> In f files) ->
          forall e, In e (fold_left
      (fun ff video_file =>
         match extract_video_frames (path video_file) extract_seconds with
         | [] => ff
         | middle_frames =>
             dict_set String.eqb (path video_file) (video_file, middle_frames) ff
         end) fs ff) -> In (fst (snd e)) files /\
            snd (snd e) = extract_video_frames (path (fst (snd e))) extract_seconds /\
            snd (snd e) <> [])
    as H by (apply H; [simpl; tauto|tauto]).
  intros ff Hff fs. revert ff Hff.
  induction fs as [|f fs IH]; intros ff Hff Hsub; simpl; [exact Hff|].
  apply IH; [|intros g Hg; apply Hsub; simpl; auto].
  destruct (extract_video_frames (path f) extract_seconds) as [|fr frs] eqn:E;
    [exact Hff|].
  intros e' He'. apply dict_set_in in He' as [He'|He']; [|exact (Hff _ He')].
  rewrite He'. simpl. split; [apply Hsub; simpl; auto|]. split; [symmetry; exact E|].
  discriminate.
Qed.

Lemma greedy_clusters_fuel_members {A : Type} (m : A -> A -> bool) (n : nat)
    (l c : list A) (y : A) :
  In c (greedy_clusters_fuel m n l) -> In y c -> In y l.
Proof.
  revert l. induction n as [|n IH]; intros l; simpl; [tauto|].
  destruct l as [|x rest]; simpl; [tauto|]. intros [<-|Hin] Hy.
  - destruct Hy as [<-|Hy]; [auto|]. apply filter_In in Hy. tauto.
  - right. apply IH in Hin; [|exact Hy]. apply filter_In in Hin. tauto.
Qed.

Lemma emit_frame_groups_in (group_key : string)
    (cs : list (list (string * (VideoFile * list thumb)))) (count : nat)
    (acc : list (string * list VideoFile)) (kv : string * list VideoFile) :
  In kv (emit_frame_groups group_key cs count acc) ->
  In kv acc \/ exists c, In c cs /\ snd kv = map (fun p => fst (snd p)) c.
Proof.
  revert count acc. induction cs as [|c cs IH]; intros count acc; simpl; [auto|].
  destruct (Nat.ltb 1 (List.length c)); intros Hin;
    destruct (IH _ _ Hin) as [Hacc|(c' & Hc' & E)]; eauto.
  apply dict_set_in in Hacc as [E|Hacc]; eauto.
Qed.

(** A file of a frame group: among its duration group's files, and
    with non-empty middle frames. *)
Lemma frames_group_step_in (threshold extract_seconds : float)
    (acc : list (string * list VideoFile)) (gk : string) (files : list VideoFile)
    (kv : string * list VideoFile) (f : VideoFile) :
  In kv (frames_group_step threshold extract_seconds acc (gk, files)) ->
  In f (snd kv) ->
  In kv acc \/ (In f files /\ extract_video_frames (path f) extract_seconds <> []).
Proof.
  rewrite frames_group_step_spec.
  destruct (Nat.ltb (List.length files) 2); [auto|].
  intros Hin Hf. apply emit_frame_groups_in in Hin as [Hacc|(c & Hc & E)]; [auto|].
  right. rewrite E in Hf. apply in_map_iff in Hf as (e & <- & He).
  apply greedy_clusters_fuel_members with (y := e) in Hc; [|exact He].
  apply collect_file_frames_entries in Hc as (H1 & H2 & H3).
  split; [exact H1|]. rewrite <- H2. exact H3.
Qed.

(** A file the extractor measures shorter than 10 seconds gets no frames. *)
Lemma extract_video_frames_short (file_path : string) (extract_seconds d : float) :
  capture_duration file_path = Some d -> PrimFloat.ltb d 10%float = true ->
  extract_video_frames file_path extract_seconds = [].
Proof.
  unfold capture_duration, extract_video_frames.
  destruct (py_int (cap_frame_count file_path)) as [tf|]; [|discriminate].
  intros E Hlt. injection E as <-. rewrite Hlt. now destruct (negb _).
Qed.

(** *** Claims about the frame refinement *)

(** C8: every file of every group of the frame refinement has non-empty
    middle frames, and so is not a file the extractor measures shorter
    than 10 seconds; and such a short file gets no frames at all. *)
Theorem frame_groups_exclude_short_files :
  (forall duration_tolerance frame_similarity_threshold extract_seconds video_files
          group_key members f,
     In (group_key, members)
       (detect_by_duration_and_frames duration_tolerance frame_similarity_threshold
          extract_seconds video_files) ->
     In f members ->
     extract_video_frames (path f) extract_seconds <> [] /\
     (forall d, capture_duration (path f) = Some d -> PrimFloat.ltb d 10%float = false)) /\
  (forall file_path extract_seconds d,
     capture_duration file_path = Some d -> PrimFloat.ltb d 10%float = true ->
     extract_video_frames file_path extract_seconds = []).
Proof.
  split; [|exact extract_video_frames_short].
  intros tol thr secs files gk members f Hin Hf.
  assert (Hne : extract_video_frames (path f) secs <> []).
  { revert Hin. unfold detect_by_duration_and_frames.
    destruct (detect_by_duration tol files) as [|c cs]; [simpl; tauto|].
    assert (Hacc : forall acc : list (string * list VideoFile),
              (forall kv, In kv acc -> In f (snd kv) ->
                 extract_video_frames (path f) secs <> []) ->
              forall cands, In (gk, members) (fold_left (frames_group_step thr secs) cands acc) ->
              extract_video_frames (path f) secs <> []).
    { intros acc Hacc cands. revert acc Hacc.
      induction cands as [|[k vs] cands IH]; intros acc Hacc; simpl.
      - intros H. exact (Hacc _ H Hf).
      - apply IH. intros kv Hkv Hfkv.
        destruct (frames_group_step_in thr secs acc k vs kv f Hkv Hfkv) as [H|[_ H]];
          [exact (Hacc _ H Hfkv)|exact H]. }
    apply (Hacc []). simpl. tauto. }
  split; [exact Hne|].
  intros d Hd. destruct (PrimFloat.ltb d 10%float) eqn:E; [|reflexivity].
  exfalso. exact (Hne (extract_video_frames_short (path f) secs d Hd E)).
Qed.

Lemma enumerate_marks_later (n : nat) (l : list VideoFile) :
  map (fun '(i, file) => (if Nat.eqb i 0 then Keep else Duplicate, file))
    (enumerate (S n) l) = map (fun f => (Duplicate, f)) l.
Proof.
  revert n. induction l as [|x l IH]; intros n; simpl; [reflexivity|].
  now rewrite IH.
Qed.

(** The listing of one group of at least two files. *)
Lemma report_lines_spec (files : list VideoFile) :
  files <> [] ->
  exists keep,
    sorted_by_size_desc files = keep :: files_to_delete files /\
    In keep files /\ (forall g, In g files -> size g <= size keep) /\
    map (fun '(i, file) => (if Nat.eqb i 0 then Keep else Duplicate, file))
      (enumerate 0 (sorted_by_size_desc files)) =
    (Keep, keep) :: map (fun f => (Duplicate, f)) (files_to_delete files).
Proof.
  intros Hne.
  destruct (sorted_by_size_desc_head files Hne)
    as (pre & keep & post & rest & E & Hpre & Hpost & Hs & _).
  unfold files_to_delete. rewrite Hs. simpl. exists keep.
  split; [reflexivity|]. split; [rewrite E; apply in_elt|].
  split; [|now rewrite enumerate_marks_later].
  intros g Hg. rewrite E in Hg. apply in_app_or in Hg as [Hg|[<-|Hg]].
  - rewrite Forall_forall in Hpre. specialize (Hpre g Hg). lia.
  - lia.
  - rewrite Forall_forall in Hpost. exact (Hpost g Hg).
Qed.

Lemma report_fold_spec {K : Type} (d : list (K * list VideoFile)) (a b : Z)
    (l : list (list (report_status * VideoFile))) :
  fold_left report_group_step d (a, b, l) =
  (a + fold_right Z.add 0
         (map (fun kv => Z.of_nat (List.length (snd kv)) - 1) (keep_duplicate_groups d)),
   b + fold_right Z.add 0
         (map (fun kv => match snd kv with [] => 0 | first :: _ => size first end
                         * (Z.of_nat (List.length (snd kv)) - 1))
            (keep_duplicate_groups d)),
   l ++ map (fun kv => match sorted_by_size_desc (snd kv) with
                      | [] => []
                      | keep :: _ => (Keep, keep)
                                     :: map (fun f => (Duplicate, f)) (files_to_delete (snd kv))
                      end) (keep_duplicate_groups d)).
Proof.
  revert a b l. induction d as [|[k files] d IH]; intros a b l; simpl.
  - now rewrite !Z.add_0_r, app_nil_r.
  - unfold keep_duplicate_groups at 1 2 3. simpl.
    destruct files as [|f1 [|f2 r]] eqn:Ef; simpl; [apply IH|apply IH|].
    rewrite IH.
    destruct (report_lines_spec (f1 :: f2 :: r)) as (keep & Hs & _ & _ & Hl);
      [discriminate|].
    rewrite Hl, Hs. unfold keep_duplicate_groups. simpl.
    now rewrite <- app_assoc, !Z.add_assoc.
Qed.

(** *** Claims about the report *)

(** C9: the report of a non-empty dict totals, over its groups of at
    least two files, (members - 1) duplicates and size(files[0]) x
    (members - 1) wasted bytes, files[0] being the group's shared size
    (size groups) or its representative (greedy groups); each group's
    listing marks the first file of the stable size-descending order, a
    member of maximum size, as kept and exactly the resolver's removal
    list as duplicates. An empty dict gives the no-duplicates branch. *)
Theorem print_duplicates_report_totals {K : Type} (d : list (K * list VideoFile)) :
  print_duplicates_report d =
  match d with
  | [] => None
  | _ => Some
      (fold_right Z.add 0
         (map (fun kv => Z.of_nat (List.length (snd kv)) - 1) (keep_duplicate_groups d)),
       fold_right Z.add 0
         (map (fun kv => match snd kv with [] => 0 | first :: _ => size first end
                         * (Z.of_nat (List.length (snd kv)) - 1))
            (keep_duplicate_groups d)),
       map (fun kv => match sorted_by_size_desc (snd kv) with
                      | [] => []
                      | keep :: _ => (Keep, keep)
                                     :: map (fun f => (Duplicate, f)) (files_to_delete (snd kv))
                      end) (keep_duplicate_groups d))
  end /\
  (forall kv, In kv (keep_duplicate_groups d) ->
     exists keep, sorted_by_size_desc (snd kv) = keep :: files_to_delete (snd kv) /\
       In keep (snd kv) /\ forall g, In g (snd kv) -> size g <= size keep).
Proof.
  split.
  - unfold print_duplicates_report. destruct d as [|kv d]; [reflexivity|].
    rewrite report_fold_spec. reflexivity.
  - intros kv Hkv. destruct kv as [k files].
    apply in_keep_duplicate_groups in Hkv as [_ Hlen].
    destruct (report_lines_spec files) as (keep & H1 & H2 & H3 & _);
      [intros ->; simpl in Hlen; lia|].
    exists keep. auto.
Qed.

(** *** [ProgressDisplay] *)

Lemma truncate_item_name_length (item_name : list Z) :
  (List.length (truncate_item_name item_name) <= 50)%nat /\
  ((List.length item_name <= 50)%nat -> truncate_item_name item_name = item_name).
Proof.
  unfold truncate_item_name.
  destruct (Nat.ltb_spec 50 (List.length item_name)) as [H|H].
  - rewrite length_app, firstn_length_le by lia. simpl. split; [lia|]. lia.
  - split; [lia|reflexivity].
Qed.

(** An update that reaches the total is never throttled: it prints the
    progress line and then the line break, and records the time; an
    update below the total within [update_interval] of the last shown one
    prints nothing. Neither depends on [verbose]. *)
Theorem progress_update_completion_shown (increment : Z) (item_name : list Z)
    (current_time : float) (p : ProgressDisplay) :
  (0 < pd_total p -> pd_total p <= pd_current p + increment ->
   exists bar item,
     progress_update increment item_name current_time p =
     (set_last_update_time (set_current p (pd_current p + increment)) current_time,
      [ProgressLine bar (pd_current p + increment) (pd_total p) item; ProgressNewline])) /\
  (pd_current p + increment < pd_total p ->
   PrimFloat.ltb (PrimFloat.sub current_time (pd_last_update_time p)) update_interval = true ->
   progress_update increment item_name current_time p =
   (set_current p (pd_current p + increment), [])).
Proof.
  unfold progress_update. split.
  - intros Hpos Hge.
    destruct (Z.ltb_spec (pd_current p + increment) (pd_total p)) as [Hlt|_]; [lia|].
    rewrite andb_false_r.
    destruct (Z.ltb_spec 0 (pd_total p)) as [_|Hn]; [|lia].
    destruct (Z.leb_spec (pd_total p) (pd_current p + increment)) as [_|Hn]; [|lia].
    eexists _, _. reflexivity.
  - intros Hlt Ht. rewrite Ht.
    destruct (Z.ltb_spec (pd_current p + increment) (pd_total p)) as [_|Hn]; [|lia].
    reflexivity.
Qed.

(** The progress line's bar is [filled] full cells then [30 - filled]
    empty ones, [filled = 30 * current // total]: exactly 30 cells while
    [0 <= current <= total], more when [current] overshoots [total]. The
    item name is shown iff it is non-empty; it is at most 50 code points,
    unchanged when it fits, and otherwise its first 47 code points
    followed by ["..."]. *)
Theorem progress_bar_shape (increment : Z) (item_name : list Z) (current_time : float)
    (p : ProgressDisplay) (bar : list bar_cell) (current total : Z)
    (item : option (list Z)) :
  In (ProgressLine bar current total item)
    (snd (progress_update increment item_name current_time p)) ->
  0 <= current ->
  current = pd_current p + increment /\ total = pd_total p /\ 0 < total /\
  bar = py_repeat Filled (bar_length * current / total)
        ++ py_repeat Unfilled (bar_length - bar_length * current / total) /\
  List.length bar = Z.to_nat (Z.max bar_length (bar_length * current / total)) /\
  (current <= total -> List.length bar = 30%nat) /\
  (item = None <-> item_name = []) /\
  (forall shown, item = Some shown ->
     (List.length shown <= 50)%nat /\
     ((List.length item_name <= 50)%nat -> shown = item_name) /\
     ((50 < List.length item_name)%nat -> shown = firstn 47 item_name ++ [46; 46; 46])).
Proof.
  unfold progress_update. intros Hin Hc.
  destruct (_ && _); [destruct Hin|].
  destruct (Z.ltb_spec 0 (pd_total p)) as [Hpos|_]; [|destruct Hin].
  remember (bar_length * (pd_current p + increment) / pd_total p) as f eqn:Ef.
  cbn [snd In] in Hin. destruct Hin as [E|Hin];
    [|destruct (Z.leb (pd_total p) (pd_current p + increment));
      [destruct Hin as [E|[]]; discriminate|destruct Hin]].
  injection E as <- <- <- <-. rewrite <- Ef.
  assert (Hf : 0 <= f) by (subst f; apply Z.div_pos; unfold bar_length; lia).
  split; [reflexivity|]. split; [reflexivity|]. split; [exact Hpos|].
  split; [reflexivity|].
  assert (Hlen : List.length (py_repeat Filled f ++ py_repeat Unfilled (bar_length - f))
                 = Z.to_nat (Z.max bar_length f)).
  { unfold py_repeat. rewrite length_app, !repeat_length. unfold bar_length. lia. }
  split; [exact Hlen|]. split.
  - intros Hle.
    change (List.length (py_repeat Filled f ++ py_repeat Unfilled (bar_length - f)) = 30%nat).
    rewrite Hlen.
    assert (f <= bar_length).
    { subst f. apply Z.div_le_upper_bound; [lia|]. unfold bar_length. nia. }
    rewrite Z.max_l by lia. reflexivity.
  - destruct item_name as [|x xs]; simpl.
    + split; [tauto|]. intros shown E. discriminate.
    + split; [split; discriminate|].
      intros shown E. injection E as <-.
      destruct (truncate_item_name_length (x :: xs)) as [A B].
      split; [exact A|]. split; [exact B|]. intros Hgt. unfold truncate_item_name.
      destruct (Nat.ltb_spec 50 (List.length (x :: xs))); [reflexivity|simpl in *; lia].
Qed.

(** [finish] prints nothing unless [verbose]. In verbose mode, a display
    left short of its total is completed: its last line is a full bar
    [total/total] with the line break, then the closing message. *)
Theorem progress_finish_completes (success_message : string)
    (update_time finish_time : float) (p : ProgressDisplay) :
  (pd_verbose p = false ->
   progress_finish success_message update_time finish_time p = (p, [])) /\
  (pd_verbose p = true -> 0 < pd_total p -> pd_current p < pd_total p ->
   exists total_time,
     progress_finish success_message update_time finish_time p =
     (set_last_update_time (set_current p (pd_total p)) update_time,
      [ProgressLine (repeat Filled 30) (pd_total p) (pd_total p) None; ProgressNewline;
       ProgressDone success_message total_time])).
Proof.
  unfold progress_finish. split; intros Hv; rewrite Hv; [reflexivity|].
  intros Hpos Hlt.
  destruct (Z.ltb_spec (pd_current p) (pd_total p)) as [_|Hn]; [|lia].
  unfold progress_update. cbn [pd_current pd_total pd_last_update_time set_current].
  rewrite Z.add_0_r, Z.ltb_irrefl, andb_false_r.
  destruct (Z.ltb_spec 0 (pd_total p)) as [_|Hn]; [|lia].
  rewrite Z.leb_refl.
  replace (bar_length * pd_total p / pd_total p) with 30
    by (unfold bar_length; rewrite Z.div_mul; lia).
  eexists. reflexivity.
Qed.

(** *** The extension set of [main] and [__init__] *)

Lemma py_set_of_from (xs acc : list string) (x : string) :
  (In x (fold_left (fun acc x => if existsb (String.eqb x) acc then acc else acc ++ [x])
           xs acc) <-> In x acc \/ In x xs) /\
  (NoDup acc -> NoDup (fold_left (fun acc x => if existsb (String.eqb x) acc then acc
                                               else acc ++ [x]) xs acc)).
Proof.
  revert acc. induction xs as [|y xs IH]; intros acc; simpl.
  - split; [tauto|auto].
  - destruct (existsb (String.eqb y) acc) eqn:E.
    + apply existsb_exists in E as (z & Hz & Ez). apply String.eqb_eq in Ez. subst z.
      destruct (IH acc) as [H1 H2]. split; [|exact H2].
      rewrite H1. split; [tauto|]. intros [H|[<-|H]]; auto.
    + destruct (IH (acc ++ [y])) as [H1 H2]. split.
      * rewrite H1, in_app_iff. simpl. tauto.
      * intros Hnd. apply H2. apply NoDup_app.
        { exact Hnd. }
        { constructor; [intros []|constructor]. }
        intros z Hz [->|[]]. apply not_true_iff_false in E. apply E.
        apply existsb_exists. exists z. split; [exact Hz|apply String.eqb_refl].
Qed.

Lemma py_set_of_spec (xs : list string) :
  (forall x, In x (py_set_of xs) <-> In x xs) /\ NoDup (py_set_of xs).
Proof.
  unfold py_set_of. split.
  - intros x. rewrite (proj1 (py_set_of_from xs [] x)). simpl. tauto.
  - apply (proj2 (py_set_of_from xs [] EmptyString)). constructor.
Qed.

Lemma split_comma_from_nonempty (cur s : string) : split_comma_from cur s <> [].
Proof.
  revert cur. induction s as [|c s IH]; intros cur; simpl; [discriminate|].
  destruct (Ascii.eqb c ","%char); [discriminate|apply IH].
Qed.

Lemma dotted_starts_with_dot (e : string) : starts_with_dot (dotted e) = true.
Proof.
  unfold dotted. destruct (starts_with_dot e) eqn:E; [exact E|].
  destruct e; reflexivity.
Qed.

Lemma dotted_id (e : string) : starts_with_dot e = true -> dotted e = e.
Proof. unfold dotted. intros ->. reflexivity. Qed.

(** [--extensions] absent or empty leaves the detector with the default
    set (as does an empty set, by [extensions or DEFAULT]). Otherwise the
    set is never empty and holds, without repetition, the comma-separated
    items stripped and lower-cased, each given a leading dot when it has
    none (an empty item, as in ["mp4,"], becomes ["."]): every extension
    the scan compares suffixes with starts with a dot. *)
Theorem parse_extensions_dotted (arg : option string) :
  detector_extensions (Some []) = DEFAULT_VIDEO_EXTENSIONS /\
  match parse_extensions arg with
  | None => (arg = None \/ arg = Some EmptyString) /\
            detector_extensions (parse_extensions arg) = DEFAULT_VIDEO_EXTENSIONS
  | Some extensions =>
      exists a, arg = Some a /\
        detector_extensions (Some extensions) = extensions /\
        extensions <> [] /\ NoDup extensions /\
        Forall (fun e => starts_with_dot e = true) extensions /\
        (forall e, In e extensions <->
           exists item, In item (py_split_comma a) /\
                        e = dotted (str_lower (py_strip item)))
  end.
Proof.
  split; [reflexivity|].
  unfold parse_extensions.
  destruct arg as [[|c a]|]; [split; [auto|reflexivity]| |split; [auto|reflexivity]].
  set (a0 := String c a).
  set (raw := map (fun e => str_lower (py_strip e)) (py_split_comma a0)).
  assert (Hraw : forall e, In e raw <->
            exists item, In item (py_split_comma a0) /\ e = str_lower (py_strip item)).
  { intros e. unfold raw. rewrite in_map_iff. split.
    - intros (x & <- & Hx). eauto.
    - intros (x & Hx & ->). eauto. }
  assert (Hne : raw <> []).
  { unfold raw. destruct (py_split_comma a0) eqn:E; [|discriminate].
    exfalso. exact (split_comma_from_nonempty _ _ E). }
  destruct (py_set_of_spec raw) as [Hin Hnd].
  assert (Hsne : forall l, (forall x, In x (py_set_of l) <-> In x l) -> l <> [] ->
                 py_set_of l <> []).
  { intros l H Hl E. destruct l as [|x l]; [congruence|].
    assert (Hx : In x (py_set_of (x :: l))) by (apply H; left; reflexivity).
    rewrite E in Hx. destruct Hx. }
  destruct (forallb starts_with_dot (py_set_of raw)) eqn:Eall.
  - exists a0. split; [reflexivity|].
    assert (Hne1 : py_set_of raw <> []) by exact (Hsne raw Hin Hne).
    split; [destruct (py_set_of raw); [congruence|reflexivity]|].
    split; [exact Hne1|]. split; [exact Hnd|].
    assert (Hf : Forall (fun e => starts_with_dot e = true) (py_set_of raw))
      by (apply Forall_forall; intros x Hx; rewrite forallb_forall in Eall; auto).
    split; [exact Hf|].
    intros e. split.
    + intros He. rewrite Forall_forall in Hf. pose proof (Hf e He) as Hd.
      apply Hin, Hraw in He as (item & Hi & ->). exists item. split; [exact Hi|].
      symmetry. apply dotted_id. exact Hd.
    + intros (item & Hi & ->).
      assert (H1 : In (str_lower (py_strip item)) (py_set_of raw))
        by (apply Hin, Hraw; eauto).
      rewrite dotted_id; [exact H1|]. rewrite forallb_forall in Eall. auto.
  - exists a0. split; [reflexivity|].
    destruct (py_set_of_spec (map dotted (py_set_of raw))) as [Hin2 Hnd2].
    assert (Hne2 : py_set_of (map dotted (py_set_of raw)) <> []).
    { apply Hsne; [exact Hin2|]. intros E. apply map_eq_nil in E.
      exact (Hsne raw Hin Hne E). }
    split; [destruct (py_set_of (map dotted (py_set_of raw))); [congruence|reflexivity]|].
    split; [exact Hne2|]. split; [exact Hnd2|].
    split.
    + apply Forall_forall. intros x Hx. apply Hin2, in_map_iff in Hx as (y & <- & _).
      apply dotted_starts_with_dot.
    + intros e. rewrite Hin2, in_map_iff. split.
      * intros (y & <- & Hy). apply Hin, Hraw in Hy as (item & Hi & ->). eauto.
      * intros (item & Hi & ->). exists (str_lower (py_strip item)).
        split; [reflexivity|]. apply Hin, Hraw. eauto.
Qed.

(** *** [scan_video_files] *)

Lemma scan_fold (extensions : list string) (l : list fs_entry)
    (video_files : list VideoFile) (n : nat) :
  fold_left (scan_step extensions) l (video_files, n) =
  (video_files ++ flat_map (fun e =>
      if entry_is_file e && has_extension extensions e then
        match entry_stat_size e with
        | Some file_size => [new_video_file (entry_path e) file_size (entry_name e)]
        | None => []
        end
      else []) l,
   (n + List.length (flat_map (fun e =>
      if entry_is_file e && has_extension extensions e then
        match entry_stat_size e with
        | Some file_size => [new_video_file (entry_path e) file_size (entry_name e)]
        | None => []
        end
      else []) l))%nat).
Proof.
  revert video_files n. induction l as [|e l IH]; intros video_files n.
  - simpl. now rewrite app_nil_r, Nat.add_0_r.
  - cbn [fold_left flat_map].
    replace (scan_step extensions (video_files, n) e) with
      (video_files ++ (if entry_is_file e && has_extension extensions e then
        match entry_stat_size e with
        | Some file_size => [new_video_file (entry_path e) file_size (entry_name e)]
        | None => []
        end
      else []),
       (n + List.length (if entry_is_file e && has_extension extensions e then
        match entry_stat_size e with
        | Some file_size => [new_video_file (entry_path e) file_size (entry_name e)]
        | None => []
        end
      else []))%nat).
    + rewrite IH, <- app_assoc, length_app. f_equal. lia.
    + unfold scan_step. destruct (entry_is_file e), (has_extension extensions e),
        (entry_stat_size e); simpl; f_equal; try apply app_nil_r; lia.
Qed.

(** [scan_video_files] appends to [self.video_files], in the order of the
    tree walk and after the files already there, one [VideoFile] (path,
    size, name; the other fields at their defaults) per regular file
    whose lower-cased suffix is in the extension set and whose [stat]
    succeeds; a file whose [stat] fails is skipped. The reported video
    count is the number of files appended, at most the number of regular
    files counted first. A second scan appends the same files again. *)
Theorem scan_video_files_appends (extensions : list string) (video_files : list VideoFile) :
  let found := flat_map (fun e =>
      if entry_is_file e && has_extension extensions e then
        match entry_stat_size e with
        | Some file_size => [new_video_file (entry_path e) file_size (entry_name e)]
        | None => []
        end
      else []) rglob_all in
  scan_video_files extensions video_files =
  (video_files ++ found, List.length (filter entry_is_file rglob_all), List.length found) /\
  (List.length found <= List.length (filter entry_is_file rglob_all))%nat /\
  (let '(video_files', _, _) := scan_video_files extensions video_files in
   fst (fst (scan_video_files extensions video_files')) = video_files ++ found ++ found).
Proof.
  intros found.
  assert (Hs : forall vf, scan_video_files extensions vf =
             (vf ++ found, List.length (filter entry_is_file rglob_all), List.length found)).
  { intros vf. unfold scan_video_files. rewrite scan_fold. reflexivity. }
  split; [apply Hs|]. split.
  - unfold found. clear Hs found. induction rglob_all as [|e l IH]; simpl; [lia|].
    destruct (entry_is_file e); simpl; [|exact IH].
    destruct (has_extension extensions e); simpl; [|lia].
    destruct (entry_stat_size e); simpl; lia.
  - rewrite Hs. cbn. rewrite Hs. cbn. symmetry. apply app_assoc.
Qed.

(** *** [main] *)

Lemma delete_target_some (ad : all_duplicates) (m : method)
    (target : list (string * list VideoFile)) :
  delete_target ad = Some (m, target) ->
  target <> [] /\
  ((m = MHash /\ ad_hash ad = Some target) \/
   (m = MFrames /\ ad_frames ad = Some target /\
    (forall h, ad_hash ad = Some h -> h = [])) \/
   (m = MDuration /\ ad_duration ad = Some target /\
    (forall h, ad_hash ad = Some h -> h = []) /\
    (forall h, ad_frames ad = Some h -> h = []))).
Proof.
  unfold delete_target.
  destruct (ad_hash ad) as [[|h hs]|] eqn:Eh;
  destruct (ad_frames ad) as [[|g gs]|] eqn:Ef;
  destruct (ad_duration ad) as [[|k ks]|] eqn:Ed; cbn; intros E; try discriminate;
  injection E as <- <-; split; try discriminate;
  first [ left; split; reflexivity
        | right; left; split; [reflexivity|]; split; [reflexivity|];
          intros x Ex; congruence
        | right; right; split; [reflexivity|]; split; [reflexivity|];
          split; intros x Ex; congruence ].
Qed.

Lemma delete_target_none (ad : all_duplicates) :
  delete_target ad = None ->
  (forall h, ad_hash ad = Some h -> h = []) /\
  (forall h, ad_frames ad = Some h -> h = []) /\
  (forall h, ad_duration ad = Some h -> h = []).
Proof.
  unfold delete_target.
  destruct (ad_hash ad) as [[|h hs]|];
  destruct (ad_frames ad) as [[|g gs]|];
  destruct (ad_duration ad) as [[|k ks]|]; cbn; intros E; try discriminate;
  (split; [|split]); intros x Ex; congruence.
Qed.

(** [main] stops with status 1 on a missing directory and with status 0
    when the scan finds no video. Otherwise it runs the selected
    detectors on the scanned files, and with [--delete] it deletes from
    the first non-empty result among hash, duration+frames and duration,
    in that priority; it never deletes from the size or name results: with
    [--method size] or [--method name], [--delete] deletes nothing. *)
Theorem main_deletes_only_reliable_results (args : main_args) (fs : FS) :
  let scanned := fst (fst (scan_video_files
                   (detector_extensions (parse_extensions (a_extensions args))) [])) in
  match main args fs with
  | BadDirectory => a_directory_is_dir args = false
  | NoVideoFiles => a_directory_is_dir args = true /\ scanned = []
  | Detected video_files ad deletion =>
      a_directory_is_dir args = true /\ video_files = scanned /\ video_files <> [] /\
      ad = run_detectors args video_files /\
      match deletion with
      | NoDeletion => a_delete args = false
      | NoReliableResult =>
          a_delete args = true /\
          (forall h, ad_hash ad = Some h -> h = []) /\
          (forall h, ad_frames ad = Some h -> h = []) /\
          (forall h, ad_duration ad = Some h -> h = [])
      | Deletion m r =>
          a_delete args = true /\
          exists target,
            r = delete_duplicates target (a_dry_run args) fs /\ target <> [] /\
            ((m = MHash /\ ad_hash ad = Some target) \/
             (m = MFrames /\ ad_frames ad = Some target /\
              (forall h, ad_hash ad = Some h -> h = [])) \/
             (m = MDuration /\ ad_duration ad = Some target /\
              (forall h, ad_hash ad = Some h -> h = []) /\
              (forall h, ad_frames ad = Some h -> h = [])))
      end /\
      ((a_method args = MethodOne MSize \/ a_method args = MethodOne MName) ->
       a_delete args = true -> deletion = NoReliableResult)
  end.
Proof.
  intros scanned. unfold main.
  destruct (a_directory_is_dir args) eqn:Hd; [|reflexivity]. cbn [negb].
  unfold scanned.
  destruct (scan_video_files (detector_extensions (parse_extensions (a_extensions args))) [])
    as [[vf tf] vc].
  cbn [fst]. destruct vf as [|f fs'] eqn:Evf; [split; reflexivity|].
  rewrite <- Evf.
  split; [reflexivity|]. split; [reflexivity|]. split; [rewrite Evf; discriminate|].
  split; [reflexivity|]. split.
  - destruct (a_delete args) eqn:Hdel; [|reflexivity].
    destruct (delete_target (run_detectors args vf)) as [[m target]|] eqn:Et.
    + split; [reflexivity|]. exists target. split; [reflexivity|].
      exact (delete_target_some _ _ _ Et).
    + split; [reflexivity|]. exact (delete_target_none _ Et).
  - intros Hm ->.
    assert (Hn : delete_target (run_detectors args vf) = None).
    { unfold delete_target, run_detectors.
      destruct Hm as [-> | ->]; reflexivity. }
    rewrite Hn. reflexivity.
Qed.

(** *** The report against the dry run *)

Lemma simulated_events (new : list delete_event) (files : list VideoFile) :
  map event_path new = map path files ->
  Forall (fun e => e = Simulated (event_path e)) new ->
  new = map (fun f => Simulated (path f)) files.
Proof.
  revert files. induction new as [|e new IH]; intros files Hp Hs; destruct files as [|f files];
    simpl in *; try discriminate; [reflexivity|].
  injection Hp as Hp1 Hp2. inversion Hs as [|? ? He Hs']; subst.
  rewrite He, Hp1. f_equal. apply IH; assumption.
Qed.

Lemma report_count_marked {K : Type} (d : list (K * list VideoFile)) :
  fold_right Z.add 0
    (map (fun kv => Z.of_nat (List.length (snd kv)) - 1) (keep_duplicate_groups d)) =
  Z.of_nat (List.length (flat_map marked_files d)).
Proof.
  induction d as [|[k files] d IH]; [reflexivity|].
  unfold keep_duplicate_groups in *. simpl. rewrite length_app, Nat2Z.inj_add, <- IH.
  unfold marked_files. simpl.
  destruct (Nat.ltb_spec 1 (List.length files)); destruct (Nat.leb_spec (List.length files) 1);
    try lia; simpl.
  - rewrite files_to_delete_length. lia.
  - reflexivity.
Qed.

Lemma report_listing_marked {K : Type} (d : list (K * list VideoFile)) :
  map snd (filter (fun e => match fst e with Duplicate => true | Keep => false end)
    (List.concat (map (fun kv => match sorted_by_size_desc (snd kv) with
                      | [] => []
                      | keep :: _ => (Keep, keep)
                                     :: map (fun f => (Duplicate, f)) (files_to_delete (snd kv))
                      end) (keep_duplicate_groups d)))) =
  flat_map marked_files d.
Proof.
  induction d as [|[k files] d IH]; [reflexivity|].
  unfold keep_duplicate_groups in *. simpl. unfold marked_files at 1. simpl.
  destruct (Nat.ltb_spec 1 (List.length files)) as [Hlt|Hge].
  - destruct (Nat.leb_spec (List.length files) 1); [lia|]. simpl.
    rewrite filter_app, map_app, IH. f_equal.
    destruct (report_lines_spec files) as (keep & Hs & _);
      [intros ->; simpl in Hlt; lia|].
    rewrite Hs. simpl. clear. induction (files_to_delete files) as [|x l IHl];
      simpl; [reflexivity|]. now rewrite IHl.
  - destruct (Nat.leb_spec (List.length files) 1); [|lia]. exact IH.
Qed.

(** The report and the dry run agree: the report's duplicate count is the
    number of files the dry run would delete, and the files the report
    marks as duplicates are, in order, the ones the dry run announces. An empty
    dict gives the report's no-duplicates branch and an empty dry run. *)
Theorem report_matches_dry_run {K : Type} (d : list (K * list VideoFile)) (fs : FS) :
  let '(deleted_count, _, _, events) := delete_duplicates d true fs in
  match print_duplicates_report d with
  | None => d = [] /\ deleted_count = 0%nat /\ events = []
  | Some (total_duplicates, _, listing) =>
      total_duplicates = Z.of_nat deleted_count /\
      map snd (filter (fun e => match fst e with Duplicate => true | Keep => false end)
                 (List.concat listing)) = flat_map marked_files d /\
      events = map (fun f => Simulated (path f)) (flat_map marked_files d)
  end.
Proof.
  pose proof (delete_duplicates_ran d true fs) as H.
  destruct (delete_duplicates d true fs) as [[[dc fc] fs'] ev] eqn:Er.
  destruct H as (new & E & P & C & F & D & _). simpl in E. subst ev.
  destruct (D eq_refl) as (_ & Hfc & Hsim). subst fc.
  pose proof (simulated_events new _ P Hsim) as Hnew.
  assert (Hdc : dc = List.length (flat_map marked_files d)) by (simpl in Hfc, C; lia).
  clear - Hnew Hdc. subst dc new.
  unfold print_duplicates_report. destruct d as [|kv d'] eqn:Ed.
  - repeat split; reflexivity.
  - rewrite <- Ed. rewrite report_fold_spec, !Z.add_0_l. simpl app.
    split; [apply report_count_marked|].
    split; [apply report_listing_marked|reflexivity].
Qed.

(** *** Every detector's dict distributes its files over the groups *)

Lemma dict_append_perm {K V : Type} (eqbK : K -> K -> bool) (k : K) (v : V)
    (d : list (K * list V)) :
  Permutation (List.concat (map snd (dict_append eqbK k v d)))
    (List.concat (map snd d) ++ [v]).
Proof.
  induction d as [|[k0 vs] d IH]; simpl; [reflexivity|].
  destruct (eqbK k k0); simpl.
  - rewrite <- !app_assoc. apply Permutation_app_head. apply Permutation_app_comm.
  - rewrite <- app_assoc. apply Permutation_app_head. exact IH.
Qed.

Lemma dict_append_fold_perm {A K V : Type} (eqbK : K -> K -> bool)
    (key : A -> K) (tr : A -> V) (l : list A) (d : list (K * list V)) :
  Permutation
    (List.concat (map snd (fold_left (fun d x => dict_append eqbK (key x) (tr x) d) l d)))
    (List.concat (map snd d) ++ map tr l).
Proof.
  revert d. induction l as [|x l IH]; intros d; simpl; [now rewrite app_nil_r|].
  rewrite IH, dict_append_perm, <- app_assoc. reflexivity.
Qed.

Lemma emit_cluster_perm (key_of : nat -> VideoFile -> string)
    (cs : list (list (nat * VideoFile))) (groups : list (string * list VideoFile)) :
  Permutation (List.concat (map snd (fold_left (emit_cluster key_of) cs groups)))
    (List.concat (map snd groups) ++ map snd (List.concat cs)).
Proof.
  revert groups. induction cs as [|c cs IH]; intros groups; simpl;
    [now rewrite app_nil_r|].
  rewrite IH, map_app, app_assoc. apply Permutation_app_tail.
  unfold emit_cluster. destruct c as [|[i rep] c']; [now rewrite app_nil_r|].
  apply (dict_append_fold_perm String.eqb (fun _ => key_of i rep) snd).
Qed.

Lemma filter_split_perm {A : Type} (f : A -> bool) (l : list A) :
  Permutation (filter f l ++ filter (fun y => negb (f y)) l) l.
Proof.
  induction l as [|x l IH]; simpl; [reflexivity|].
  destruct (f x); simpl; [now constructor|].
  symmetry. apply Permutation_cons_app. symmetry. exact IH.
Qed.

Lemma greedy_clusters_fuel_perm {A : Type} (m : A -> A -> bool) (n : nat) (l : list A) :
  (List.length l <= n)%nat -> Permutation (List.concat (greedy_clusters_fuel m n l)) l.
Proof.
  revert l. induction n as [|n IH]; intros l Hl; simpl.
  - destruct l; [reflexivity|simpl in Hl; lia].
  - destruct l as [|x rest]; simpl; [reflexivity|]. constructor.
    rewrite IH; [apply filter_split_perm|].
    simpl in Hl. pose proof (filter_length_le (fun y => negb (m x y)) rest). lia.
Qed.

Lemma greedy_clusters_perm {A : Type} (m : A -> A -> bool) (l : list A) :
  Permutation (List.concat (greedy_clusters m l)) l.
Proof. apply greedy_clusters_fuel_perm. lia. Qed.

Lemma enumerate_snd {A : Type} (n : nat) (l : list A) : map snd (enumerate n l) = l.
Proof.
  revert n. induction l as [|x l IH]; intros n; simpl; [reflexivity|]. now rewrite IH.
Qed.

Lemma greedy_outer_perm (key_of : nat -> VideoFile -> string)
    (m : VideoFile -> VideoFile -> bool) (l : list VideoFile) :
  Permutation (List.concat (map snd (greedy_outer key_of m (enumerate 0 l) [] []))) l.
Proof.
  rewrite greedy_outer_spec by apply enumerate_nodup.
  rewrite filter_unprocessed_nil, emit_cluster_perm. simpl.
  rewrite <- (enumerate_snd 0 l) at 2. apply Permutation_map, greedy_clusters_perm.
Qed.

Lemma keep_duplicate_groups_split {K V : Type} (d : list (K * list V)) :
  exists rest, Permutation (List.concat (map snd (keep_duplicate_groups d)) ++ rest)
                 (List.concat (map snd d)).
Proof.
  induction d as [|[k vs] d [rest IH]]; simpl; [exists []; reflexivity|].
  unfold keep_duplicate_groups in *. simpl.
  destruct (Nat.ltb 1 (List.length vs)); simpl.
  - exists rest. rewrite <- app_assoc. apply Permutation_app_head. exact IH.
  - exists (vs ++ rest). rewrite <- IH. rewrite app_assoc.
    rewrite (Permutation_app_comm _ vs). now rewrite <- app_assoc.
Qed.

Lemma size_groups_perm (video_files : list VideoFile) :
  Permutation (List.concat (map snd (size_groups video_files))) video_files.
Proof.
  unfold size_groups.
  rewrite (dict_append_fold_perm Z.eqb size (fun f => f)), map_id. reflexivity.
Qed.

Lemma hash_groups_perm (video_files : list VideoFile) :
  Permutation (List.concat (map snd (hash_groups video_files)))
    (map (fun f => set_hash_md5 f (calculate_file_hash (path f)))
       (filter (fun f => negb (String.eqb (calculate_file_hash (path f)) EmptyString))
          video_files)).
Proof.
  unfold hash_groups.
  enough (forall d, Permutation (List.concat (map snd (fold_left hash_step video_files d)))
    (List.concat (map snd d) ++
     map (fun f => set_hash_md5 f (calculate_file_hash (path f)))
       (filter (fun f => negb (String.eqb (calculate_file_hash (path f)) EmptyString))
          video_files))) as H by apply H.
  induction video_files as [|f l IH]; intros d; simpl; [now rewrite app_nil_r|].
  rewrite IH. unfold hash_step.
  destruct (String.eqb (calculate_file_hash (path f)) EmptyString); simpl; [reflexivity|].
  rewrite dict_append_perm, <- app_assoc. reflexivity.
Qed.

Lemma valid_duration_files_spec (video_files : list VideoFile) :
  valid_duration_files video_files =
  map (fun f => set_duration f (get_video_duration (path f)))
    (filter (fun f => PrimFloat.ltb 0%float (get_video_duration (path f))) video_files).
Proof.
  unfold valid_duration_files.
  enough (forall acc, fold_left
    (fun acc f =>
       let d := get_video_duration (path f) in
       if PrimFloat.ltb 0%float d then acc ++ [set_duration f d] else acc) video_files acc =
    acc ++ map (fun f => set_duration f (get_video_duration (path f)))
      (filter (fun f => PrimFloat.ltb 0%float (get_video_duration (path f))) video_files))
    as H by apply H.
  induction video_files as [|f l IH]; intros acc; simpl; [now rewrite app_nil_r|].
  rewrite IH. destruct (PrimFloat.ltb 0%float (get_video_duration (path f))); simpl;
    [now rewrite <- app_assoc|reflexivity].
Qed.

Lemma duration_groups_perm (duration_tolerance : float) (video_files : list VideoFile) :
  Permutation (List.concat (map snd (duration_groups duration_tolerance video_files)))
    (valid_duration_files video_files).
Proof. unfold duration_groups. apply greedy_outer_perm. Qed.

(** The dicts the size, hash, name and duration detectors build before
    dropping single-file groups hold every file they went through exactly
    once: all the inventory for the size and name detectors, the files with
    a non-empty hash (carrying it) for the hash detector, and the files of
    positive duration (carrying it) for the duration detector. *)
Theorem detector_dicts_partition_files :
  (forall video_files,
     Permutation (List.concat (map snd (size_groups video_files))) video_files) /\
  (forall video_files,
     Permutation (List.concat (map snd (hash_groups video_files)))
       (map (fun f => set_hash_md5 f (calculate_file_hash (path f)))
          (filter (fun f => negb (String.eqb (calculate_file_hash (path f)) EmptyString))
             video_files))) /\
  (forall similarity_threshold video_files,
     Permutation
       (List.concat (map snd (greedy_outer name_key (name_matches similarity_threshold)
                                (enumerate 0 video_files) [] [])))
       video_files) /\
  (forall duration_tolerance video_files,
     Permutation (List.concat (map snd (duration_groups duration_tolerance video_files)))
       (valid_duration_files video_files) /\
     valid_duration_files video_files =
     map (fun f => set_duration f (get_video_duration (path f)))
       (filter (fun f => PrimFloat.ltb 0%float (get_video_duration (path f))) video_files)).
Proof.
  split; [exact size_groups_perm|split; [exact hash_groups_perm|split]].
  - intros thr files. apply greedy_outer_perm.
  - intros tol files. split; [apply duration_groups_perm|apply valid_duration_files_spec].
Qed.

(** No file is reported twice: the files of the groups the size, hash,
    name and duration detectors return, together with the files left out
    (those of single-file groups), are the files their dicts went through. *)
Theorem detected_files_within_input :
  (forall video_files, exists rest,
     Permutation (List.concat (map snd (detect_by_size video_files)) ++ rest) video_files) /\
  (forall video_files, exists rest,
     Permutation (List.concat (map snd (detect_by_hash video_files)) ++ rest)
       (map (fun f => set_hash_md5 f (calculate_file_hash (path f)))
          (filter (fun f => negb (String.eqb (calculate_file_hash (path f)) EmptyString))
             video_files))) /\
  (forall similarity_threshold video_files, exists rest,
     Permutation
       (List.concat (map snd (detect_by_name_similarity similarity_threshold video_files))
        ++ rest) video_files) /\
  (forall duration_tolerance video_files, exists rest,
     Permutation
       (List.concat (map snd (detect_by_duration duration_tolerance video_files)) ++ rest)
       (valid_duration_files video_files)).
Proof.
  split; [|split; [|split]].
  - intros files. destruct (keep_duplicate_groups_split (size_groups files)) as [rest E].
    exists rest. eapply Permutation_trans; [exact E|apply size_groups_perm].
  - intros files. destruct (keep_duplicate_groups_split (hash_groups files)) as [rest E].
    exists rest. eapply Permutation_trans; [exact E|apply hash_groups_perm].
  - intros thr files.
    destruct (keep_duplicate_groups_split
      (greedy_outer name_key (name_matches thr) (enumerate 0 files) [] [])) as [rest E].
    exists rest. eapply Permutation_trans; [exact E|apply greedy_outer_perm].
  - intros tol files.
    destruct (keep_duplicate_groups_split (duration_groups tol files)) as [rest E].
    exists rest. eapply Permutation_trans; [exact E|apply duration_groups_perm].
Qed.

(** *** How the duration detector keys its groups *)

Lemma dict_append_forall {K V : Type} (eqbK : K -> K -> bool)
    (eqbK_spec : forall a b, reflect (a = b) (eqbK a b))
    (P : K -> list V -> Prop) (k : K) (v : V) (d : list (K * list V)) :
  (forall k' vs, P k' vs -> P k' (vs ++ [v])) ->
  (~ In k (map fst d) -> P k [v]) ->
  (forall e, In e d -> P (fst e) (snd e)) ->
  forall e, In e (dict_append eqbK k v d) -> P (fst e) (snd e).
Proof.
  intros Happ. induction d as [|[k0 vs] d IH]; simpl; intros Hnew Hd e.
  - intros [<-|[]]. simpl. apply Hnew. tauto.
  - destruct (eqbK_spec k k0) as [->|Hne]; simpl.
    + intros [<-|He]; [simpl; apply Happ, (Hd (k0, vs)); auto|apply Hd; auto].
    + intros [<-|He]; [apply Hd; auto|].
      apply IH; [intros Hin; apply Hnew; intros [E|H]; [congruence|tauto]|
                 intros e' He'; apply Hd; auto|exact He].
Qed.

Lemma dict_append_key_kept {K V : Type} (eqbK : K -> K -> bool) (k k' : K) (v : V)
    (d : list (K * list V)) :
  In k (map fst d) -> In k (map fst (dict_append eqbK k' v d)).
Proof.
  induction d as [|[k0 vs] d IH]; simpl; [tauto|].
  destruct (eqbK k' k0); simpl; intros [->|H]; auto.
Qed.

Lemma dict_append_key_added {K V : Type} (eqbK : K -> K -> bool)
    (eqbK_spec : forall a b, reflect (a = b) (eqbK a b)) (k : K) (v : V)
    (d : list (K * list V)) :
  In k (map fst (dict_append eqbK k v d)).
Proof.
  induction d as [|[k0 vs] d IH]; simpl; [auto|].
  destruct (eqbK_spec k k0) as [->|]; simpl; auto.
Qed.

(** A dict entry keyed by the key of its first value. *)
Definition keyed_by_first (key : VideoFile -> string) (k : string) (vs : list VideoFile)
    : Prop :=
  exists first rest, vs = first :: rest /\ k = key first.

Lemma emit_cluster_keyed (key : VideoFile -> string)
    (cs : list (list (nat * VideoFile))) (groups : list (string * list VideoFile)) :
  (forall e, In e groups -> keyed_by_first key (fst e) (snd e)) ->
  forall e, In e (fold_left (emit_cluster (fun _ f => key f)) cs groups) ->
    keyed_by_first key (fst e) (snd e).
Proof.
  assert (Happ : forall v k vs, keyed_by_first key k vs -> keyed_by_first key k (vs ++ [v])).
  { intros v k vs (first & rest & -> & ->). now exists first, (rest ++ [v]). }
  revert groups. induction cs as [|c cs IH]; intros groups Hg; simpl; [exact Hg|].
  apply IH. unfold emit_cluster. destruct c as [|[i rep] c]; [exact Hg|]. simpl.
  assert (Hin : In (key rep) (map fst (dict_append String.eqb (key rep) rep groups)))
    by apply (dict_append_key_added _ String.eqb_spec).
  assert (H1 : forall e, In e (dict_append String.eqb (key rep) rep groups) ->
                 keyed_by_first key (fst e) (snd e)).
  { apply (dict_append_forall _ String.eqb_spec); [apply Happ| |exact Hg].
    intros _. now exists rep, []. }
  revert Hin H1. generalize (dict_append String.eqb (key rep) rep groups).
  induction c as [|p c IHc]; intros g Hin Hg'; simpl; [exact Hg'|].
  apply IHc; [apply dict_append_key_kept; exact Hin|].
  apply (dict_append_forall _ String.eqb_spec); [apply Happ|tauto|exact Hg'].
Qed.

(** Every group [detect_by_duration] returns has at least two files and is
    stored under [f"duration_{d:.1f}"] for the duration [d] of its first
    file (the representative that opened it: later representatives whose
    key collides append to it); each of its files is an inventory file
    with a positive ffprobe duration, which it carries. *)
Theorem duration_groups_keyed_by_first_file (duration_tolerance : float)
    (video_files : list VideoFile) (group_key : string) (files : list VideoFile) :
  In (group_key, files) (detect_by_duration duration_tolerance video_files) ->
  (1 < List.length files)%nat /\
  (exists first rest, files = first :: rest /\
     group_key = ("duration_" ++ format_1f (duration first))%string) /\
  Forall (fun f => exists f0, In f0 video_files /\
            PrimFloat.ltb 0%float (get_video_duration (path f0)) = true /\
            f = set_duration f0 (get_video_duration (path f0))) files.
Proof.
  intros H. apply in_keep_duplicate_groups in H as [Hin Hlen].
  split; [exact Hlen|]. split.
  - assert (Hk : forall e, In e (duration_groups duration_tolerance video_files) ->
                   keyed_by_first (fun f => ("duration_" ++ format_1f (duration f))%string)
                     (fst e) (snd e)).
    { rewrite duration_groups_spec. apply emit_cluster_keyed. simpl. tauto. }
    exact (Hk _ Hin).
  - apply Forall_forall. intros f Hf.
    pose proof (duration_groups_perm duration_tolerance video_files) as Hp.
    pose proof (valid_duration_files_spec video_files) as Hv.
    assert (Hf' : In f (valid_duration_files video_files)).
    { eapply Permutation_in; [exact Hp|]. apply in_concat.
      exists files. split; [|exact Hf]. apply (in_map snd) in Hin. exact Hin. }
    rewrite Hv in Hf'. apply in_map_iff in Hf' as (f0 & <- & Hf0).
    apply filter_In in Hf0 as [H0 H1]. now exists f0.
Qed.

(** *** The frame refinement splits duration groups *)

Lemma dict_set_in_eq {K V : Type} (eqbK : K -> K -> bool)
    (eqbK_spec : forall a b, reflect (a = b) (eqbK a b)) (k : K) (v : V)
    (d : list (K * V)) (e : K * V) :
  In e (dict_set eqbK k v d) -> e = (k, v) \/ In e d.
Proof.
  induction d as [|[k0 v0] d IH]; simpl.
  - intros [<-|[]]. auto.
  - destruct (eqbK_spec k k0) as [->|]; simpl.
    + intros [<-|Hin]; auto.
    + intros [<-|Hin]; [auto|]. destruct (IH Hin); auto.
Qed.

(** A stored frame group: at least two files of the duration group
    [files], under [f"{group_key}_frames_{n}"]. *)
Definition frame_group_of (group_key : string) (files : list VideoFile)
    (kv : string * list VideoFile) : Prop :=
  (1 < List.length (snd kv))%nat /\ incl (snd kv) files /\
  exists n, fst kv = (group_key ++ "_frames_" ++ string_of_nonneg (Z.of_nat n))%string.

Lemma emit_frame_groups_of (group_key : string) (files : list VideoFile)
    (cs : list (list (string * (VideoFile * list thumb)))) (count : nat)
    (acc : list (string * list VideoFile)) (kv : string * list VideoFile) :
  (forall c, In c cs -> incl (map (fun p => fst (snd p)) c) files) ->
  In kv (emit_frame_groups group_key cs count acc) ->
  In kv acc \/ frame_group_of group_key files kv.
Proof.
  revert count acc. induction cs as [|c cs IH]; intros count acc Hcs; simpl; [auto|].
  assert (Hcs' : forall c', In c' cs -> incl (map (fun p => fst (snd p)) c') files)
    by (intros; apply Hcs; simpl; auto).
  destruct (Nat.ltb_spec 1 (List.length c)); intros Hin;
    destruct (IH _ _ Hcs' Hin) as [Hacc|Hof]; auto.
  apply (dict_set_in_eq _ String.eqb_spec) in Hacc as [->|Hacc]; auto.
  right. split; [simpl; now rewrite length_map|]. split; [apply Hcs; simpl; auto|].
  now exists count.
Qed.

Lemma frames_group_step_of (threshold extract_seconds : float)
    (acc : list (string * list VideoFile)) (group_key : string) (files : list VideoFile)
    (kv : string * list VideoFile) :
  In kv (frames_group_step threshold extract_seconds acc (group_key, files)) ->
  In kv acc \/ frame_group_of group_key files kv.
Proof.
  rewrite frames_group_step_spec. destruct (Nat.ltb (List.length files) 2); [auto|].
  apply emit_frame_groups_of. intros c Hc f Hf.
  apply in_map_iff in Hf as (e & <- & He).
  apply greedy_clusters_fuel_members with (y := e) in Hc; [|exact He].
  apply collect_file_frames_entries in Hc. tauto.
Qed.

(** Every group [detect_by_duration_and_frames] returns is made of at
    least two files of one group [(group_key, files)] of
    [detect_by_duration] with the same arguments, and is stored under
    [f"{group_key}_frames_{n}"]. *)
Theorem frame_groups_refine_duration_groups (duration_tolerance
    frame_similarity_threshold extract_seconds : float) (video_files : list VideoFile)
    (kv : string * list VideoFile) :
  In kv (detect_by_duration_and_frames duration_tolerance frame_similarity_threshold
           extract_seconds video_files) ->
  exists group_key files,
    In (group_key, files) (detect_by_duration duration_tolerance video_files) /\
    frame_group_of group_key files kv.
Proof.
  unfold detect_by_duration_and_frames.
  destruct (detect_by_duration duration_tolerance video_files) as [|c0 cs0] eqn:Ed;
    [simpl; tauto|].
  rewrite <- Ed.
  assert (H : forall cands acc, incl cands (detect_by_duration duration_tolerance video_files) ->
    In kv (fold_left (frames_group_step frame_similarity_threshold extract_seconds) cands acc) ->
    In kv acc \/ exists group_key files,
      In (group_key, files) (detect_by_duration duration_tolerance video_files) /\
      frame_group_of group_key files kv).
  { induction cands as [|[gk files] cands IH]; intros acc Hinc Hin; simpl in Hin; [auto|].
    destruct (IH _ (fun x Hx => Hinc x (or_intror Hx)) Hin) as [Hacc|Hex]; [|auto].
    apply frames_group_step_of in Hacc as [Hacc|Hof]; [auto|].
    right. exists gk, files. split; [apply Hinc; simpl; auto|exact Hof]. }
  intros Hin. destruct (H _ [] (incl_refl _) Hin) as [[]|Hex]. exact Hex.
Qed.

(** *** What [extract_video_frames] reads *)

Lemma read_frames_spec (file_path : string) (start : Z) (remaining k : nat)
    (middle_frames : list thumb) :
  exists frames,
    read_frames file_path start k remaining middle_frames
      = middle_frames ++ map gray_resize_64 frames /\
    (List.length frames <= remaining)%nat /\
    map (fun j => cap_read file_path start (k + j)) (seq 0 (List.length frames))
      = map ReadFrame frames /\
    ((List.length frames < remaining)%nat ->
     forall fr, cap_read file_path start (k + List.length frames) <> ReadFrame fr).
Proof.
  revert k middle_frames.
  induction remaining as [|remaining IH]; intros k middle_frames; simpl.
  - exists []. simpl. rewrite app_nil_r. repeat split; [lia|]. intros H; lia.
  - destruct (cap_read file_path start k) as [fr| |] eqn:E.
    + destruct (IH (S k) (middle_frames ++ [gray_resize_64 fr]))
        as (frames & H1 & H2 & H3 & H4).
      exists (fr :: frames). rewrite H1, <- app_assoc. simpl.
      split; [reflexivity|]. split; [lia|]. split.
      * rewrite Nat.add_0_r, E. f_equal. rewrite <- seq_shift, map_map, <- H3.
        apply map_ext. intros j. now rewrite Nat.add_succ_r.
      * intros Hlt fr'. rewrite Nat.add_succ_r. apply H4. lia.
    + exists []. simpl. rewrite app_nil_r. repeat split; [lia|].
      intros _ fr'. rewrite Nat.add_0_r, E. discriminate.
    + exists []. simpl. rewrite app_nil_r. repeat split; [lia|].
      intros _ fr'. rewrite Nat.add_0_r, E. discriminate.
Qed.

(** The middle frames are empty when the capture does not open, when
    [int(frame count)] raises, when the frame rate is not positive (the
    duration is then taken as 0) or when the duration [total_frames / fps]
    is under 10 seconds. Otherwise, with [middle_frame = int(duration / 2 *
    fps)] and [target_frames = int(fps * extract_seconds)], they are the
    thumbnails of the frames read one after the other from [middle_frame]:
    at most [target_frames] of them, and fewer only when the next read
    ends the loop (no frame, or an exception). *)
Theorem extract_video_frames_reads (file_path : string) (extract_seconds : float) :
  (cap_is_opened file_path = false -> extract_video_frames file_path extract_seconds = []) /\
  (py_int (cap_frame_count file_path) = None ->
   extract_video_frames file_path extract_seconds = []) /\
  (PrimFloat.ltb 0%float (cap_fps file_path) = false ->
   extract_video_frames file_path extract_seconds = []) /\
  (forall total_frames,
     py_int (cap_frame_count file_path) = Some total_frames ->
     PrimFloat.ltb (PrimFloat.div (float_of_int total_frames) (cap_fps file_path)) 10%float
       = true ->
     extract_video_frames file_path extract_seconds = []) /\
  (forall total_frames middle_frame target_frames,
     cap_is_opened file_path = true ->
     py_int (cap_frame_count file_path) = Some total_frames ->
     PrimFloat.ltb 0%float (cap_fps file_path) = true ->
     PrimFloat.ltb (PrimFloat.div (float_of_int total_frames) (cap_fps file_path)) 10%float
       = false ->
     py_int (PrimFloat.mul
               (PrimFloat.div (PrimFloat.div (float_of_int total_frames) (cap_fps file_path))
                  2%float)
               (cap_fps file_path)) = Some middle_frame ->
     py_int (PrimFloat.mul (cap_fps file_path) extract_seconds) = Some target_frames ->
     exists frames,
       extract_video_frames file_path extract_seconds = map gray_resize_64 frames /\
       (List.length frames <= Z.to_nat target_frames)%nat /\
       map (cap_read file_path middle_frame) (seq 0 (List.length frames))
         = map ReadFrame frames /\
       ((List.length frames < Z.to_nat target_frames)%nat ->
        forall fr, cap_read file_path middle_frame (List.length frames) <> ReadFrame fr)).
Proof.
  unfold extract_video_frames. split; [|split; [|split; [|split]]].
  - intros ->. reflexivity.
  - intros ->. now destruct (negb (cap_is_opened file_path)).
  - intros Hfps. destruct (negb (cap_is_opened file_path)); [reflexivity|].
    rewrite Hfps. destruct (py_int (cap_frame_count file_path)); [|reflexivity].
    change (PrimFloat.ltb 0%float 10%float) with true. reflexivity.
  - intros total_frames Htf Hshort. destruct (negb (cap_is_opened file_path)); [reflexivity|].
    rewrite Htf. destruct (PrimFloat.ltb 0%float (cap_fps file_path)).
    + now rewrite Hshort.
    + change (PrimFloat.ltb 0%float 10%float) with true. reflexivity.
  - intros total_frames middle_frame target_frames Hopen Htf Hfps Hlong Hmid Ht.
    rewrite Hopen, Htf, Hfps. simpl negb. cbv iota beta. rewrite Hlong, Hmid, Ht.
    destruct (read_frames_spec file_path middle_frame (Z.to_nat target_frames) 0 [])
      as (frames & H1 & H2 & H3 & H4).
    exists frames. rewrite H1. simpl.
    split; [reflexivity|]. split; [exact H2|]. split; [exact H3|exact H4].
Qed.

(** *** What [calculate_frame_similarity] averages *)

Lemma nth_error_combine_some {A B : Type} (l1 : list A) (l2 : list B) (i : nat) (a : A) (b : B) :
  nth_error (combine l1 l2) i = Some (a, b) -> nth_error l1 i = Some a /\ nth_error l2 i = Some b.
Proof.
  revert l2 i. induction l1 as [|x l1 IH]; intros [|y l2] [|i]; simpl;
    try discriminate; [|apply IH].
  intros E. injection E as -> ->. auto.
Qed.

(** [calculate_frame_similarity] is 0 when either frame list is empty.
    Otherwise it is [np.mean] of one score per frame index below the
    shorter length: the index's correlation when [matchTemplate] returns
    a positive one, and 0 when it raises or returns a correlation that is
    not positive (a [nan] included). *)
Theorem calculate_frame_similarity_scores (frames1 frames2 : list thumb) :
  ((frames1 = [] \/ frames2 = []) -> calculate_frame_similarity frames1 frames2 = 0%float) /\
  (frames1 <> [] -> frames2 <> [] ->
   exists similarities,
     calculate_frame_similarity frames1 frames2 = np_mean similarities /\
     List.length similarities = Nat.min (List.length frames1) (List.length frames2) /\
     forall i x, nth_error similarities i = Some x ->
       exists a b, nth_error frames1 i = Some a /\ nth_error frames2 i = Some b /\
         ((match_template_ccoeff_normed a b = Some x /\ PrimFloat.ltb 0%float x = true) \/
          (x = 0%float /\
           forall c, match_template_ccoeff_normed a b = Some c ->
             PrimFloat.ltb 0%float c = false))).
Proof.
  split.
  - intros [->| ->]; [reflexivity|]. destruct frames1; reflexivity.
  - intros H1 H2. unfold calculate_frame_similarity.
    destruct frames1 as [|a1 r1]; [congruence|]. destruct frames2 as [|a2 r2]; [congruence|].
    eexists. split; [reflexivity|]. split.
    + now rewrite length_map, length_combine.
    + intros i x Hx. rewrite nth_error_map in Hx.
      destruct (nth_error (combine (a1 :: r1) (a2 :: r2)) i) as [[a b]|] eqn:Ec;
        [|discriminate].
      simpl in Hx. injection Hx as Hx.
      apply nth_error_combine_some in Ec as [Ea Eb].
      exists a, b. split; [exact Ea|]. split; [exact Eb|].
      destruct (match_template_ccoeff_normed a b) as [c|] eqn:Em.
      * unfold clamp_correlation in Hx. destruct (PrimFloat.ltb 0%float c) eqn:Ep.
        -- left. subst. auto.
        -- right. split; [congruence|]. intros c' Ec'. congruence.
      * right. split; [congruence|]. intros c' Ec'. discriminate.
Qed.

(** *** Where groups are ordered *)

Lemma subseq_filter {A : Type} (f : A -> bool) (l : list A) : subseq (filter f l) l.
Proof.
  induction l as [|x l IH]; simpl; [constructor|].
  destruct (f x); constructor; exact IH.
Qed.

Lemma subseq_trans {A : Type} (l1 l2 l3 : list A) :
  subseq l1 l2 -> subseq l2 l3 -> subseq l1 l3.
Proof.
  intros H12 H23. revert l1 H12.
  induction H23 as [|x l2 l3 H23 IH|x l2 l3 H23 IH]; intros l1 H12.
  - exact H12.
  - inversion H12; subst; constructor; apply IH; assumption.
  - constructor. apply IH. exact H12.
Qed.

Lemma greedy_clusters_fuel_subseq {A : Type} (m : A -> A -> bool) (n : nat)
    (l c : list A) :
  In c (greedy_clusters_fuel m n l) -> subseq c l.
Proof.
  revert l. induction n as [|n IH]; intros l; simpl; [tauto|].
  destruct l as [|x rest]; simpl; [tauto|]. intros [<-|Hin].
  - constructor. apply subseq_filter.
  - constructor. eapply subseq_trans; [exact (IH _ Hin)|apply subseq_filter].
Qed.

(** C5 (amended): no detector sorts its groups. A size group lists, in
    inventory order, the inventory files of its size, and a hash group
    the files whose digest is its key, carrying that digest. The name,
    duration and frame detectors store greedy clusters of the list they
    scan (the inventory, the files of positive duration, the files with
    frames), each cluster kept in that list's order. The size-descending
    order appears only when a group is reported (its listing is the
    sorted group, the first file kept) or resolved (the files deleted are
    the sorted group without its first file). *)
Theorem size_and_hash_groups_in_inventory_order (video_files : list VideoFile) :
  (forall k vs, In (k, vs) (detect_by_size video_files) ->
     vs = filter (fun f => Z.eqb (size f) k) video_files) /\
  (forall h vs, In (h, vs) (detect_by_hash video_files) ->
     vs = map (fun f => set_hash_md5 f h)
            (filter (fun f => String.eqb (calculate_file_hash (path f)) h)
               video_files)) /\
  (forall similarity_threshold,
     detect_by_name_similarity similarity_threshold video_files =
     keep_duplicate_groups
       (fold_left (emit_cluster name_key)
          (greedy_clusters (on_file (name_matches similarity_threshold))
             (enumerate 0 video_files)) [])) /\
  (forall duration_tolerance,
     duration_groups duration_tolerance video_files =
     fold_left (emit_cluster duration_key)
       (greedy_clusters (on_file (duration_matches duration_tolerance))
          (enumerate 0 (valid_duration_files video_files))) []) /\
  (forall threshold extract_seconds frame_duplicates group_key files,
     frames_group_step threshold extract_seconds frame_duplicates (group_key, files) =
     if Nat.ltb (List.length files) 2 then frame_duplicates
     else emit_frame_groups group_key
            (greedy_clusters (frame_matches threshold)
               (collect_file_frames extract_seconds files)) 0 frame_duplicates) /\
  (forall (A : Type) (m : A -> A -> bool) (l c : list A),
     In c (greedy_clusters m l) -> subseq c l) /\
  (forall (K : Type) (d : list (K * list VideoFile)) total_duplicates total_wasted_space
          listing,
     print_duplicates_report d = Some (total_duplicates, total_wasted_space, listing) ->
     listing = map (fun kv => match sorted_by_size_desc (snd kv) with
                              | [] => []
                              | keep :: rest => (Keep, keep) :: map (fun f => (Duplicate, f)) rest
                              end) (keep_duplicate_groups d)) /\
  (forall (K : Type) (d : list (K * list VideoFile)) dry_run fs,
     let '(_, _, _, events) := delete_duplicates d dry_run fs in
     map event_path events =
     map path (flat_map (fun kv => if Nat.leb (List.length (snd kv)) 1 then []
                                   else skipn 1 (sorted_by_size_desc (snd kv))) d)).
Proof.
  split; [|split; [|split; [|split; [|split; [|split; [|split]]]]]].
  - intros k vs Hin. apply in_keep_duplicate_groups in Hin as [Hin _].
    now apply size_group_entry.
  - intros h vs Hin. apply in_keep_duplicate_groups in Hin as [Hin Hlen].
    apply hash_group_entry in Hin as [_ E]; [exact E|].
    intros ->. simpl in Hlen. lia.
  - intros thr. unfold detect_by_name_similarity. f_equal.
    rewrite greedy_outer_spec by apply enumerate_nodup.
    now rewrite filter_unprocessed_nil.
  - intros tol. apply duration_groups_spec.
  - apply frames_group_step_spec.
  - intros A m l c. apply greedy_clusters_fuel_subseq.
  - intros K d t w listing. unfold print_duplicates_report.
    destruct d as [|kv d']; [discriminate|]. rewrite report_fold_spec.
    intros E. injection E as _ _ <-. simpl app. apply map_ext. intros kv'.
    destruct (sorted_by_size_desc (snd kv')) as [|keep rest] eqn:Es; [reflexivity|].
    unfold files_to_delete. rewrite Es. reflexivity.
  - intros K d dry fs. pose proof (delete_duplicates_ran d dry fs) as H.
    destruct (delete_duplicates d dry fs) as [[[dc fc] fs'] ev].
    destruct H as (new & E & P & _). simpl in E. subst ev. rewrite P. reflexivity.
Qed.

End Detector.


(** ** Concrete runs of the duration detector *)

(** C3 counterexample: durations 100, 106, 102.5, 105 s with tolerance 3.
    The last file matches the member 102.5 of the first group but not its
    representative 100; it does not start a group of its own but joins
    the group of the representative 106. *)
Lemma greedy_member_match_joins_later_group :
  map (fun kv => (fst kv, map path (snd kv)))
    (detect_by_duration (probe_of chain_durations) 3%float chain_files) =
  [("duration_100.0"%string, ["a.mp4"%string; "b.mp4"%string]);
   ("duration_106.0"%string, ["d.mp4"%string; "x.mp4"%string])] /\
  duration_matches 3%float
    (set_duration (new_video_file "b.mp4" 10 "b.mp4") 102.5%float)
    (set_duration (new_video_file "x.mp4" 10 "x.mp4") 105%float) = true /\
  duration_matches 3%float
    (set_duration (new_video_file "a.mp4" 10 "a.mp4") 100%float)
    (set_duration (new_video_file "x.mp4" 10 "x.mp4") 105%float) = false.
Proof. split; [|split]; vm_compute; reflexivity. Qed.

(** C4 counterexample: durations 100, 104, 102, 106 s with tolerance 3.
    The file of 102 s is within the tolerance of the representative
    104 s, but it is not in that representative's reported group: the
    earlier representative 100 s has already taken it. *)
Lemma duration_match_claimed_earlier :
  map (fun kv => (fst kv, map path (snd kv)))
    (detect_by_duration (probe_of claimed_durations) 3%float claimed_files) =
  [("duration_100.0"%string, ["p.mp4"%string; "r.mp4"%string]);
   ("duration_104.0"%string, ["q.mp4"%string; "s.mp4"%string])] /\
  duration_matches 3%float
    (set_duration (new_video_file "q.mp4" 10 "q.mp4") 104%float)
    (set_duration (new_video_file "r.mp4" 10 "r.mp4") 102%float) = true.
Proof. split; vm_compute; reflexivity. Qed.

(** C5 counterexample: two files of 100 s, of sizes 1 then 2 bytes. The
    duration detector reports them in inventory order, the smaller one
    first, not in size-descending order. *)
Lemma duration_group_not_size_sorted :
  map (fun kv => map size (snd kv))
    (detect_by_duration (probe_of same_length_durations) 3%float same_length_files) =
  [[1; 2]].
Proof. vm_compute. reflexivity. Qed.

(** C4 (amended): the duration detector's clusters are the greedy
    clusters of the files with a positive duration, in inventory order:
    a representative's cluster is itself and exactly the later files not
    yet clustered whose duration is within the tolerance of its own. With
    tolerance 3 s, the inventory of durations 100 and 102.5 s gives one
    reported group of both files, that of 100 and 104 s gives none. *)
Theorem duration_tolerance_grouping :
  (forall ffprobe_duration duration_tolerance video_files,
     duration_groups ffprobe_duration duration_tolerance video_files =
     fold_left (emit_cluster duration_key)
       (greedy_clusters (on_file (duration_matches duration_tolerance))
          (enumerate 0 (valid_duration_files ffprobe_duration video_files))) []) /\
  map (fun kv => map path (snd kv))
    (detect_by_duration (probe_of pair_durations) 3%float near_pair_files) =
  [["m.mp4"%string; "n.mp4"%string]] /\
  detect_by_duration (probe_of pair_durations) 3%float far_pair_files = [].
Proof.
  split; [exact duration_groups_spec|].
  split; vm_compute; reflexivity.
Qed.

(** C10: with tolerance 0.01 s, files of 100.00 and 100.04 s are two
    clusters of one representative each (neither matches the other, and
    no file of the inventory matches both); their keys are both
    [duration_100.0], so the detector reports them as one group. *)
Theorem duration_key_collision_merges_groups :
  exists video_files ffprobe_duration duration_tolerance group_key f g,
    greedy_clusters (on_file (duration_matches duration_tolerance))
      (enumerate 0 (valid_duration_files ffprobe_duration video_files)) =
    [[(0%nat, f)]; [(1%nat, g)]] /\
    duration_key 0 f = group_key /\ duration_key 1 g = group_key /\
    detect_by_duration ffprobe_duration duration_tolerance video_files =
    [(group_key, [f; g])] /\
    forallb (fun r => negb (duration_matches duration_tolerance r f
                            && duration_matches duration_tolerance r g))
      (valid_duration_files ffprobe_duration video_files) = true.
Proof.
  exists close_files, (probe_of close_durations), 0.01%float,
    "duration_100.0"%string,
    (set_duration (new_video_file "u.mp4" 10 "u.mp4") 100%float),
    (set_duration (new_video_file "v.mp4" 10 "v.mp4") 100.04%float).
  split; [|split; [|split; [|split]]]; vm_compute; reflexivity.
Qed.

(** ** Concrete runs of the extra properties *)

(** Half way through a 10-item run, with an item name of one character:
    the bar is 15 filled cells and 15 empty ones. *)
Lemma progress_bar_shape_witness :
  In (ProgressLine (repeat Filled 15 ++ repeat Unfilled 15) 5 10
        (Some (repeat 97 47 ++ [46; 46; 46])))
    (snd (progress_update 5 (repeat 97 60) 2%float (new_progress 10 "" true 0%float))) /\
  0 <= 5 /\
  (5 = pd_current (new_progress 10 "" true 0%float) + 5 /\
   10 = pd_total (new_progress 10 "" true 0%float) /\ 0 < 10 /\
   repeat Filled 15 ++ repeat Unfilled 15 =
     py_repeat Filled (bar_length * 5 / 10)
     ++ py_repeat Unfilled (bar_length - bar_length * 5 / 10) /\
   List.length (repeat Filled 15 ++ repeat Unfilled 15) =
     Z.to_nat (Z.max bar_length (bar_length * 5 / 10)) /\
   (5 <= 10 -> List.length (repeat Filled 15 ++ repeat Unfilled 15) = 30%nat) /\
   (Some (repeat 97 47 ++ [46; 46; 46]) = None <-> repeat 97 60 = []) /\
   (forall shown, Some (repeat 97 47 ++ [46; 46; 46]) = Some shown ->
      (List.length shown <= 50)%nat /\
      ((List.length (repeat 97 60) <= 50)%nat -> shown = repeat 97 60) /\
      ((50 < List.length (repeat 97 60))%nat ->
       shown = firstn 47 (repeat 97 60) ++ [46; 46; 46]))).
Proof.
  assert (H : In (ProgressLine (repeat Filled 15 ++ repeat Unfilled 15) 5 10
                    (Some (repeat 97 47 ++ [46; 46; 46])))
    (snd (progress_update 5 (repeat 97 60) 2%float (new_progress 10 "" true 0%float))))
    by (vm_compute; left; reflexivity).
  split; [exact H|]. split; [lia|].
  exact (progress_bar_shape 5 (repeat 97 60) 2%float (new_progress 10 "" true 0%float)
           _ 5 10 _ H ltac:(lia)).
Defined.

(** The two-file inventory of 100 and 102.5 s with tolerance 3: one group,
    keyed by the first file's duration. *)
Lemma duration_groups_keyed_by_first_file_witness :
  In ("duration_100.0"%string,
      [set_duration (new_video_file "m.mp4" 10 "m.mp4") 100%float;
       set_duration (new_video_file "n.mp4" 10 "n.mp4") 102.5%float])
    (detect_by_duration (probe_of pair_durations) 3%float near_pair_files) /\
  ((1 < 2)%nat /\
   (exists first rest,
      [set_duration (new_video_file "m.mp4" 10 "m.mp4") 100%float;
       set_duration (new_video_file "n.mp4" 10 "n.mp4") 102.5%float] = first :: rest /\
      "duration_100.0"%string = ("duration_" ++ format_1f (duration first))%string) /\
   Forall (fun f => exists f0, In f0 near_pair_files /\
             PrimFloat.ltb 0%float (get_video_duration (probe_of pair_durations) (path f0))
               = true /\
             f = set_duration f0 (get_video_duration (probe_of pair_durations) (path f0)))
     [set_duration (new_video_file "m.mp4" 10 "m.mp4") 100%float;
      set_duration (new_video_file "n.mp4" 10 "n.mp4") 102.5%float]).
Proof.
  assert (H : In ("duration_100.0"%string,
      [set_duration (new_video_file "m.mp4" 10 "m.mp4") 100%float;
       set_duration (new_video_file "n.mp4" 10 "n.mp4") 102.5%float])
    (detect_by_duration (probe_of pair_durations) 3%float near_pair_files))
    by (vm_compute; left; reflexivity).
  split; [exact H|].
  exact (duration_groups_keyed_by_first_file (fun _ => None) (probe_of pair_durations)
           (fun s => s) (fun _ _ => 0%float) unit (fun _ => true) (fun _ => 30%float)
           (fun _ => 3000%float) (fun _ _ _ => ReadFrame tt) (fun s => s)
           3%float near_pair_files _ _ H).
Defined.

(** The same inventory, every capture opening at 30 fps for 100 s and
    every pair of frames correlating fully: the frame refinement keeps
    the duration group, as [duration_100.0_frames_0]. *)
Lemma frame_groups_refine_duration_groups_witness :
  In ("duration_100.0_frames_0"%string,
      [set_duration (new_video_file "m.mp4" 10 "m.mp4") 100%float;
       set_duration (new_video_file "n.mp4" 10 "n.mp4") 102.5%float])
    (detect_by_duration_and_frames (probe_of pair_durations) unit unit
       (fun _ => true) (fun _ => 30%float) (fun _ => 3000%float)
       (fun _ _ _ => ReadFrame tt) (fun x => x) (fun _ _ => Some 1%float)
       (fun _ => 1%float) 3%float 0.9%float 0.1%float near_pair_files) /\
  exists group_key files,
    In (group_key, files)
      (detect_by_duration (probe_of pair_durations) 3%float near_pair_files) /\
    frame_group_of group_key files
      ("duration_100.0_frames_0"%string,
       [set_duration (new_video_file "m.mp4" 10 "m.mp4") 100%float;
        set_duration (new_video_file "n.mp4" 10 "n.mp4") 102.5%float]).
Proof.
  assert (H : In ("duration_100.0_frames_0"%string,
      [set_duration (new_video_file "m.mp4" 10 "m.mp4") 100%float;
       set_duration (new_video_file "n.mp4" 10 "n.mp4") 102.5%float])
    (detect_by_duration_and_frames (probe_of pair_durations) unit unit
       (fun _ => true) (fun _ => 30%float) (fun _ => 3000%float)
       (fun _ _ _ => ReadFrame tt) (fun x => x) (fun _ _ => Some 1%float)
       (fun _ => 1%float) 3%float 0.9%float 0.1%float near_pair_files))
    by (vm_compute; left; reflexivity).
  split; [exact H|].
  exact (frame_groups_refine_duration_groups (fun _ => None) (probe_of pair_durations)
           (fun s => s) (fun _ _ => 0%float) unit unit (fun _ => true) (fun _ => 30%float)
           (fun _ => 3000%float) (fun _ _ _ => ReadFrame tt) (fun x => x)
           (fun _ _ => Some 1%float) (fun _ => 1%float) (fun s => s)
           3%float 0.9%float 0.1%float near_pair_files _ H).
Defined.
